(** * XNAPoS proof-of-work hash chain: HAVAL and the Hash9 orchestration

    A shallow embedding of [src/hash/haval.c], of the HAVAL header that
    carries the round macros, and of the two definitions of [Hash9] in
    [src/hashblock.h], with the properties the design document states about
    them.

    Words and bytes are integers ([Z]) with the wrap-around written out; a
    caller's buffer is a list of bytes; a context is a record; the calls of
    [hashblock.h] run in a state monad over the process, which holds the
    global contexts and a record of the calls made.  The primitives that the
    sources do not contain enter through an interface that carries the
    contract the design document gives each primitive. *)

From Stdlib Require Import ZArith List Bool Lia Btauto.
Import ListNotations.

Local Open Scope Z_scope.

(** ** 32-bit words

    [sph_u32] is an unsigned type of 32 bits; it is embedded as [Z], with the
    wrap-around written where the C code has it. *)

Definition word32 (x : Z) : Prop := 0 <= x < 2 ^ 32.

(** Modelled from the spec: [sph_types.h] is not among the sources.  For a
    state vector of 32-bit words its macros are, by their names and their
    use in [haval.c], a 32-bit constant, the truncation to 32 bits and the
    rotations of a 32-bit word. *)
Definition SPH_C32 (x : Z) : Z := x.

Definition SPH_T32 (x : Z) : Z := Z.land x (SPH_C32 0xFFFFFFFF).

Definition SPH_ROTL32 (x n : Z) : Z :=
  SPH_T32 (Z.lor (Z.shiftl x n) (Z.shiftr x (32 - n))).

Definition SPH_ROTR32 (x n : Z) : Z := SPH_ROTL32 x (32 - n).

(** The C operator [~] on an [sph_u32]. *)
Definition not32 (x : Z) : Z := Z.lxor x 0xFFFFFFFF.

(** A store of [bs] at offset [off] of a caller's buffer.  A store that runs
    past the end is outside the contract of every function here; the model
    leaves the buffer as it is. *)
Definition mem_write (dst : list Z) (off : nat) (bs : list Z) : list Z :=
  if Nat.leb (off + length bs) (length dst)
  then firstn off dst ++ bs ++ skipn (off + length bs) dst
  else dst.

Module Haval.

(** ** The boolean functions of the five passes *)

(** The "basic definition from the reference paper", as the comment above each
    macro gives it. *)
Definition F1_paper (x6 x5 x4 x3 x2 x1 x0 : Z) : Z :=
  Z.lxor (Z.lxor (Z.lxor (Z.lxor (Z.land x1 x4) (Z.land x2 x5)) (Z.land x3 x6))
    (Z.land x0 x1)) x0.

Definition F2_paper (x6 x5 x4 x3 x2 x1 x0 : Z) : Z :=
  Z.lxor (Z.lxor (Z.lxor (Z.lxor (Z.lxor (Z.lxor (Z.lxor (Z.lxor
    (Z.land (Z.land x1 x2) x3) (Z.land (Z.land x2 x4) x5)) (Z.land x1 x2))
    (Z.land x1 x4)) (Z.land x2 x6)) (Z.land x3 x5))
    (Z.land x4 x5)) (Z.land x0 x2)) x0.

Definition F3_paper (x6 x5 x4 x3 x2 x1 x0 : Z) : Z :=
  Z.lxor (Z.lxor (Z.lxor (Z.lxor (Z.lxor
    (Z.land (Z.land x1 x2) x3) (Z.land x1 x4)) (Z.land x2 x5))
    (Z.land x3 x6)) (Z.land x0 x3)) x0.

Definition F4_paper (x6 x5 x4 x3 x2 x1 x0 : Z) : Z :=
  Z.lxor (Z.lxor (Z.lxor (Z.lxor (Z.lxor (Z.lxor (Z.lxor (Z.lxor (Z.lxor
    (Z.lxor (Z.lxor
    (Z.land (Z.land x1 x2) x3) (Z.land (Z.land x2 x4) x5))
    (Z.land (Z.land x3 x4) x6))
    (Z.land x1 x4)) (Z.land x2 x6)) (Z.land x3 x4)) (Z.land x3 x5))
    (Z.land x3 x6)) (Z.land x4 x5)) (Z.land x4 x6)) (Z.land x0 x4)) x0.

Definition F5_paper (x6 x5 x4 x3 x2 x1 x0 : Z) : Z :=
  Z.lxor (Z.lxor (Z.lxor (Z.lxor (Z.lxor
    (Z.land x1 x4) (Z.land x2 x5)) (Z.land x3 x6))
    (Z.land (Z.land (Z.land x0 x1) x2) x3)) (Z.land x0 x5)) x0.

(** The macros [F1] to [F5] as the code defines them. *)
Definition F1 (x6 x5 x4 x3 x2 x1 x0 : Z) : Z :=
  Z.lxor (Z.lxor (Z.lxor (Z.land x1 (Z.lxor x0 x4)) (Z.land x2 x5))
    (Z.land x3 x6)) x0.

Definition F2 (x6 x5 x4 x3 x2 x1 x0 : Z) : Z :=
  Z.lxor (Z.lxor
    (Z.land x2
       (Z.lxor (Z.lxor (Z.lxor (Z.land x1 (not32 x3)) (Z.land x4 x5)) x6) x0))
    (Z.land x4 (Z.lxor x1 x5)))
    (Z.lxor (Z.land x3 x5) x0).

Definition F3 (x6 x5 x4 x3 x2 x1 x0 : Z) : Z :=
  Z.lxor (Z.lxor (Z.lxor
    (Z.land x3 (Z.lxor (Z.lxor (Z.land x1 x2) x6) x0))
    (Z.land x1 x4)) (Z.land x2 x5)) x0.

Definition F4 (x6 x5 x4 x3 x2 x1 x0 : Z) : Z :=
  Z.lxor (Z.lxor (Z.lxor
    (Z.land x3 (Z.lxor (Z.lxor (Z.land x1 x2) (Z.lor x4 x6)) x5))
    (Z.land x4
       (Z.lxor (Z.lxor (Z.lxor (Z.land (not32 x2) x5) x1) x6) x0)))
    (Z.land x2 x6)) x0.

Definition F5 (x6 x5 x4 x3 x2 x1 x0 : Z) : Z :=
  Z.lxor (Z.lxor (Z.lxor
    (Z.land x0 (not32 (Z.lxor (Z.land (Z.land x1 x2) x3) x5)))
    (Z.land x1 x4)) (Z.land x2 x5)) (Z.land x3 x6).


(** ** The phi permutations folded into the pass functions *)

Definition FP3_1 (x6 x5 x4 x3 x2 x1 x0 : Z) : Z := F1 x1 x0 x3 x5 x6 x2 x4.
Definition FP3_2 (x6 x5 x4 x3 x2 x1 x0 : Z) : Z := F2 x4 x2 x1 x0 x5 x3 x6.
Definition FP3_3 (x6 x5 x4 x3 x2 x1 x0 : Z) : Z := F3 x6 x1 x2 x3 x4 x5 x0.

Definition FP4_1 (x6 x5 x4 x3 x2 x1 x0 : Z) : Z := F1 x2 x6 x1 x4 x5 x3 x0.
Definition FP4_2 (x6 x5 x4 x3 x2 x1 x0 : Z) : Z := F2 x3 x5 x2 x0 x1 x6 x4.
Definition FP4_3 (x6 x5 x4 x3 x2 x1 x0 : Z) : Z := F3 x1 x4 x3 x6 x0 x2 x5.
Definition FP4_4 (x6 x5 x4 x3 x2 x1 x0 : Z) : Z := F4 x6 x4 x0 x5 x2 x1 x3.

Definition FP5_1 (x6 x5 x4 x3 x2 x1 x0 : Z) : Z := F1 x3 x4 x1 x0 x5 x2 x6.
Definition FP5_2 (x6 x5 x4 x3 x2 x1 x0 : Z) : Z := F2 x6 x2 x1 x0 x3 x4 x5.
Definition FP5_3 (x6 x5 x4 x3 x2 x1 x0 : Z) : Z := F3 x2 x6 x0 x4 x3 x1 x5.
Definition FP5_4 (x6 x5 x4 x3 x2 x1 x0 : Z) : Z := F4 x1 x5 x3 x2 x0 x4 x6.
Definition FP5_5 (x6 x5 x4 x3 x2 x1 x0 : Z) : Z := F5 x2 x5 x0 x6 x4 x3 x1.

(** [FP ## n ## _ ## p]: the token pasting of [STEP] names one of the twelve
    macros above; no other pair of [n] and [p] is ever pasted. *)
Definition FP (n p : nat) (x6 x5 x4 x3 x2 x1 x0 : Z) : Z :=
  match n, p with
  | 3%nat, 1%nat => FP3_1 x6 x5 x4 x3 x2 x1 x0
  | 3%nat, 2%nat => FP3_2 x6 x5 x4 x3 x2 x1 x0
  | 3%nat, 3%nat => FP3_3 x6 x5 x4 x3 x2 x1 x0
  | 4%nat, 1%nat => FP4_1 x6 x5 x4 x3 x2 x1 x0
  | 4%nat, 2%nat => FP4_2 x6 x5 x4 x3 x2 x1 x0
  | 4%nat, 3%nat => FP4_3 x6 x5 x4 x3 x2 x1 x0
  | 4%nat, 4%nat => FP4_4 x6 x5 x4 x3 x2 x1 x0
  | 5%nat, 1%nat => FP5_1 x6 x5 x4 x3 x2 x1 x0
  | 5%nat, 2%nat => FP5_2 x6 x5 x4 x3 x2 x1 x0
  | 5%nat, 3%nat => FP5_3 x6 x5 x4 x3 x2 x1 x0
  | 5%nat, 4%nat => FP5_4 x6 x5 x4 x3 x2 x1 x0
  | 5%nat, 5%nat => FP5_5 x6 x5 x4 x3 x2 x1 x0
  | _, _ => 0
  end.

(** One step, for [n] passes, pass number [p], input word [w] and step
    constant [c]: the value the macro [STEP] assigns to its [x7]. *)
Definition STEP (n p : nat) (x7 x6 x5 x4 x3 x2 x1 x0 w c : Z) : Z :=
  let t := FP n p x6 x5 x4 x3 x2 x1 x0 in
  SPH_T32 (SPH_ROTR32 t 7 + SPH_ROTR32 x7 11 + w + c).

(** The running state, variables [s0] to [s7] of [DSTATE]. *)
Inductive regs : Type := Regs (s0 s1 s2 s3 s4 s5 s6 s7 : Z).

(** The passes, in the unrolled form the code compiles when
    [SPH_SMALL_FOOTPRINT_HAVAL] is not set: one [let] for each [STEP] line. *)

Local Open Scope nat_scope.

Definition PASS1 (n : nat) (inw : nat -> Z) (s : regs) : regs :=
  let '(Regs s0 s1 s2 s3 s4 s5 s6 s7) := s in
  let s7 := STEP n 1 s7 s6 s5 s4 s3 s2 s1 s0 (inw 0) (SPH_C32 0x00000000) in
  let s6 := STEP n 1 s6 s5 s4 s3 s2 s1 s0 s7 (inw 1) (SPH_C32 0x00000000) in
  let s5 := STEP n 1 s5 s4 s3 s2 s1 s0 s7 s6 (inw 2) (SPH_C32 0x00000000) in
  let s4 := STEP n 1 s4 s3 s2 s1 s0 s7 s6 s5 (inw 3) (SPH_C32 0x00000000) in
  let s3 := STEP n 1 s3 s2 s1 s0 s7 s6 s5 s4 (inw 4) (SPH_C32 0x00000000) in
  let s2 := STEP n 1 s2 s1 s0 s7 s6 s5 s4 s3 (inw 5) (SPH_C32 0x00000000) in
  let s1 := STEP n 1 s1 s0 s7 s6 s5 s4 s3 s2 (inw 6) (SPH_C32 0x00000000) in
  let s0 := STEP n 1 s0 s7 s6 s5 s4 s3 s2 s1 (inw 7) (SPH_C32 0x00000000) in
  let s7 := STEP n 1 s7 s6 s5 s4 s3 s2 s1 s0 (inw 8) (SPH_C32 0x00000000) in
  let s6 := STEP n 1 s6 s5 s4 s3 s2 s1 s0 s7 (inw 9) (SPH_C32 0x00000000) in
  let s5 := STEP n 1 s5 s4 s3 s2 s1 s0 s7 s6 (inw 10) (SPH_C32 0x00000000) in
  let s4 := STEP n 1 s4 s3 s2 s1 s0 s7 s6 s5 (inw 11) (SPH_C32 0x00000000) in
  let s3 := STEP n 1 s3 s2 s1 s0 s7 s6 s5 s4 (inw 12) (SPH_C32 0x00000000) in
  let s2 := STEP n 1 s2 s1 s0 s7 s6 s5 s4 s3 (inw 13) (SPH_C32 0x00000000) in
  let s1 := STEP n 1 s1 s0 s7 s6 s5 s4 s3 s2 (inw 14) (SPH_C32 0x00000000) in
  let s0 := STEP n 1 s0 s7 s6 s5 s4 s3 s2 s1 (inw 15) (SPH_C32 0x00000000) in
  let s7 := STEP n 1 s7 s6 s5 s4 s3 s2 s1 s0 (inw 16) (SPH_C32 0x00000000) in
  let s6 := STEP n 1 s6 s5 s4 s3 s2 s1 s0 s7 (inw 17) (SPH_C32 0x00000000) in
  let s5 := STEP n 1 s5 s4 s3 s2 s1 s0 s7 s6 (inw 18) (SPH_C32 0x00000000) in
  let s4 := STEP n 1 s4 s3 s2 s1 s0 s7 s6 s5 (inw 19) (SPH_C32 0x00000000) in
  let s3 := STEP n 1 s3 s2 s1 s0 s7 s6 s5 s4 (inw 20) (SPH_C32 0x00000000) in
  let s2 := STEP n 1 s2 s1 s0 s7 s6 s5 s4 s3 (inw 21) (SPH_C32 0x00000000) in
  let s1 := STEP n 1 s1 s0 s7 s6 s5 s4 s3 s2 (inw 22) (SPH_C32 0x00000000) in
  let s0 := STEP n 1 s0 s7 s6 s5 s4 s3 s2 s1 (inw 23) (SPH_C32 0x00000000) in
  let s7 := STEP n 1 s7 s6 s5 s4 s3 s2 s1 s0 (inw 24) (SPH_C32 0x00000000) in
  let s6 := STEP n 1 s6 s5 s4 s3 s2 s1 s0 s7 (inw 25) (SPH_C32 0x00000000) in
  let s5 := STEP n 1 s5 s4 s3 s2 s1 s0 s7 s6 (inw 26) (SPH_C32 0x00000000) in
  let s4 := STEP n 1 s4 s3 s2 s1 s0 s7 s6 s5 (inw 27) (SPH_C32 0x00000000) in
  let s3 := STEP n 1 s3 s2 s1 s0 s7 s6 s5 s4 (inw 28) (SPH_C32 0x00000000) in
  let s2 := STEP n 1 s2 s1 s0 s7 s6 s5 s4 s3 (inw 29) (SPH_C32 0x00000000) in
  let s1 := STEP n 1 s1 s0 s7 s6 s5 s4 s3 s2 (inw 30) (SPH_C32 0x00000000) in
  let s0 := STEP n 1 s0 s7 s6 s5 s4 s3 s2 s1 (inw 31) (SPH_C32 0x00000000) in
  Regs s0 s1 s2 s3 s4 s5 s6 s7.

Definition PASS2 (n : nat) (inw : nat -> Z) (s : regs) : regs :=
  let '(Regs s0 s1 s2 s3 s4 s5 s6 s7) := s in
  let s7 := STEP n 2 s7 s6 s5 s4 s3 s2 s1 s0 (inw 5) (SPH_C32 0x452821E6) in
  let s6 := STEP n 2 s6 s5 s4 s3 s2 s1 s0 s7 (inw 14) (SPH_C32 0x38D01377) in
  let s5 := STEP n 2 s5 s4 s3 s2 s1 s0 s7 s6 (inw 26) (SPH_C32 0xBE5466CF) in
  let s4 := STEP n 2 s4 s3 s2 s1 s0 s7 s6 s5 (inw 18) (SPH_C32 0x34E90C6C) in
  let s3 := STEP n 2 s3 s2 s1 s0 s7 s6 s5 s4 (inw 11) (SPH_C32 0xC0AC29B7) in
  let s2 := STEP n 2 s2 s1 s0 s7 s6 s5 s4 s3 (inw 28) (SPH_C32 0xC97C50DD) in
  let s1 := STEP n 2 s1 s0 s7 s6 s5 s4 s3 s2 (inw 7) (SPH_C32 0x3F84D5B5) in
  let s0 := STEP n 2 s0 s7 s6 s5 s4 s3 s2 s1 (inw 16) (SPH_C32 0xB5470917) in
  let s7 := STEP n 2 s7 s6 s5 s4 s3 s2 s1 s0 (inw 0) (SPH_C32 0x9216D5D9) in
  let s6 := STEP n 2 s6 s5 s4 s3 s2 s1 s0 s7 (inw 23) (SPH_C32 0x8979FB1B) in
  let s5 := STEP n 2 s5 s4 s3 s2 s1 s0 s7 s6 (inw 20) (SPH_C32 0xD1310BA6) in
  let s4 := STEP n 2 s4 s3 s2 s1 s0 s7 s6 s5 (inw 22) (SPH_C32 0x98DFB5AC) in
  let s3 := STEP n 2 s3 s2 s1 s0 s7 s6 s5 s4 (inw 1) (SPH_C32 0x2FFD72DB) in
  let s2 := STEP n 2 s2 s1 s0 s7 s6 s5 s4 s3 (inw 10) (SPH_C32 0xD01ADFB7) in
  let s1 := STEP n 2 s1 s0 s7 s6 s5 s4 s3 s2 (inw 4) (SPH_C32 0xB8E1AFED) in
  let s0 := STEP n 2 s0 s7 s6 s5 s4 s3 s2 s1 (inw 8) (SPH_C32 0x6A267E96) in
  let s7 := STEP n 2 s7 s6 s5 s4 s3 s2 s1 s0 (inw 30) (SPH_C32 0xBA7C9045) in
  let s6 := STEP n 2 s6 s5 s4 s3 s2 s1 s0 s7 (inw 3) (SPH_C32 0xF12C7F99) in
  let s5 := STEP n 2 s5 s4 s3 s2 s1 s0 s7 s6 (inw 21) (SPH_C32 0x24A19947) in
  let s4 := STEP n 2 s4 s3 s2 s1 s0 s7 s6 s5 (inw 9) (SPH_C32 0xB3916CF7) in
  let s3 := STEP n 2 s3 s2 s1 s0 s7 s6 s5 s4 (inw 17) (SPH_C32 0x0801F2E2) in
  let s2 := STEP n 2 s2 s1 s0 s7 s6 s5 s4 s3 (inw 24) (SPH_C32 0x858EFC16) in
  let s1 := STEP n 2 s1 s0 s7 s6 s5 s4 s3 s2 (inw 29) (SPH_C32 0x636920D8) in
  let s0 := STEP n 2 s0 s7 s6 s5 s4 s3 s2 s1 (inw 6) (SPH_C32 0x71574E69) in
  let s7 := STEP n 2 s7 s6 s5 s4 s3 s2 s1 s0 (inw 19) (SPH_C32 0xA458FEA3) in
  let s6 := STEP n 2 s6 s5 s4 s3 s2 s1 s0 s7 (inw 12) (SPH_C32 0xF4933D7E) in
  let s5 := STEP n 2 s5 s4 s3 s2 s1 s0 s7 s6 (inw 15) (SPH_C32 0x0D95748F) in
  let s4 := STEP n 2 s4 s3 s2 s1 s0 s7 s6 s5 (inw 13) (SPH_C32 0x728EB658) in
  let s3 := STEP n 2 s3 s2 s1 s0 s7 s6 s5 s4 (inw 2) (SPH_C32 0x718BCD58) in
  let s2 := STEP n 2 s2 s1 s0 s7 s6 s5 s4 s3 (inw 25) (SPH_C32 0x82154AEE) in
  let s1 := STEP n 2 s1 s0 s7 s6 s5 s4 s3 s2 (inw 31) (SPH_C32 0x7B54A41D) in
  let s0 := STEP n 2 s0 s7 s6 s5 s4 s3 s2 s1 (inw 27) (SPH_C32 0xC25A59B5) in
  Regs s0 s1 s2 s3 s4 s5 s6 s7.

Definition PASS3 (n : nat) (inw : nat -> Z) (s : regs) : regs :=
  let '(Regs s0 s1 s2 s3 s4 s5 s6 s7) := s in
  let s7 := STEP n 3 s7 s6 s5 s4 s3 s2 s1 s0 (inw 19) (SPH_C32 0x9C30D539) in
  let s6 := STEP n 3 s6 s5 s4 s3 s2 s1 s0 s7 (inw 9) (SPH_C32 0x2AF26013) in
  let s5 := STEP n 3 s5 s4 s3 s2 s1 s0 s7 s6 (inw 4) (SPH_C32 0xC5D1B023) in
  let s4 := STEP n 3 s4 s3 s2 s1 s0 s7 s6 s5 (inw 20) (SPH_C32 0x286085F0) in
  let s3 := STEP n 3 s3 s2 s1 s0 s7 s6 s5 s4 (inw 28) (SPH_C32 0xCA417918) in
  let s2 := STEP n 3 s2 s1 s0 s7 s6 s5 s4 s3 (inw 17) (SPH_C32 0xB8DB38EF) in
  let s1 := STEP n 3 s1 s0 s7 s6 s5 s4 s3 s2 (inw 8) (SPH_C32 0x8E79DCB0) in
  let s0 := STEP n 3 s0 s7 s6 s5 s4 s3 s2 s1 (inw 22) (SPH_C32 0x603A180E) in
  let s7 := STEP n 3 s7 s6 s5 s4 s3 s2 s1 s0 (inw 29) (SPH_C32 0x6C9E0E8B) in
  let s6 := STEP n 3 s6 s5 s4 s3 s2 s1 s0 s7 (inw 14) (SPH_C32 0xB01E8A3E) in
  let s5 := STEP n 3 s5 s4 s3 s2 s1 s0 s7 s6 (inw 25) (SPH_C32 0xD71577C1) in
  let s4 := STEP n 3 s4 s3 s2 s1 s0 s7 s6 s5 (inw 12) (SPH_C32 0xBD314B27) in
  let s3 := STEP n 3 s3 s2 s1 s0 s7 s6 s5 s4 (inw 24) (SPH_C32 0x78AF2FDA) in
  let s2 := STEP n 3 s2 s1 s0 s7 s6 s5 s4 s3 (inw 30) (SPH_C32 0x55605C60) in
  let s1 := STEP n 3 s1 s0 s7 s6 s5 s4 s3 s2 (inw 16) (SPH_C32 0xE65525F3) in
  let s0 := STEP n 3 s0 s7 s6 s5 s4 s3 s2 s1 (inw 26) (SPH_C32 0xAA55AB94) in
  let s7 := STEP n 3 s7 s6 s5 s4 s3 s2 s1 s0 (inw 31) (SPH_C32 0x57489862) in
  let s6 := STEP n 3 s6 s5 s4 s3 s2 s1 s0 s7 (inw 15) (SPH_C32 0x63E81440) in
  let s5 := STEP n 3 s5 s4 s3 s2 s1 s0 s7 s6 (inw 7) (SPH_C32 0x55CA396A) in
  let s4 := STEP n 3 s4 s3 s2 s1 s0 s7 s6 s5 (inw 3) (SPH_C32 0x2AAB10B6) in
  let s3 := STEP n 3 s3 s2 s1 s0 s7 s6 s5 s4 (inw 1) (SPH_C32 0xB4CC5C34) in
  let s2 := STEP n 3 s2 s1 s0 s7 s6 s5 s4 s3 (inw 0) (SPH_C32 0x1141E8CE) in
  let s1 := STEP n 3 s1 s0 s7 s6 s5 s4 s3 s2 (inw 18) (SPH_C32 0xA15486AF) in
  let s0 := STEP n 3 s0 s7 s6 s5 s4 s3 s2 s1 (inw 27) (SPH_C32 0x7C72E993) in
  let s7 := STEP n 3 s7 s6 s5 s4 s3 s2 s1 s0 (inw 13) (SPH_C32 0xB3EE1411) in
  let s6 := STEP n 3 s6 s5 s4 s3 s2 s1 s0 s7 (inw 6) (SPH_C32 0x636FBC2A) in
  let s5 := STEP n 3 s5 s4 s3 s2 s1 s0 s7 s6 (inw 21) (SPH_C32 0x2BA9C55D) in
  let s4 := STEP n 3 s4 s3 s2 s1 s0 s7 s6 s5 (inw 10) (SPH_C32 0x741831F6) in
  let s3 := STEP n 3 s3 s2 s1 s0 s7 s6 s5 s4 (inw 23) (SPH_C32 0xCE5C3E16) in
  let s2 := STEP n 3 s2 s1 s0 s7 s6 s5 s4 s3 (inw 11) (SPH_C32 0x9B87931E) in
  let s1 := STEP n 3 s1 s0 s7 s6 s5 s4 s3 s2 (inw 5) (SPH_C32 0xAFD6BA33) in
  let s0 := STEP n 3 s0 s7 s6 s5 s4 s3 s2 s1 (inw 2) (SPH_C32 0x6C24CF5C) in
  Regs s0 s1 s2 s3 s4 s5 s6 s7.

Definition PASS4 (n : nat) (inw : nat -> Z) (s : regs) : regs :=
  let '(Regs s0 s1 s2 s3 s4 s5 s6 s7) := s in
  let s7 := STEP n 4 s7 s6 s5 s4 s3 s2 s1 s0 (inw 24) (SPH_C32 0x7A325381) in
  let s6 := STEP n 4 s6 s5 s4 s3 s2 s1 s0 s7 (inw 4) (SPH_C32 0x28958677) in
  let s5 := STEP n 4 s5 s4 s3 s2 s1 s0 s7 s6 (inw 0) (SPH_C32 0x3B8F4898) in
  let s4 := STEP n 4 s4 s3 s2 s1 s0 s7 s6 s5 (inw 14) (SPH_C32 0x6B4BB9AF) in
  let s3 := STEP n 4 s3 s2 s1 s0 s7 s6 s5 s4 (inw 2) (SPH_C32 0xC4BFE81B) in
  let s2 := STEP n 4 s2 s1 s0 s7 s6 s5 s4 s3 (inw 7) (SPH_C32 0x66282193) in
  let s1 := STEP n 4 s1 s0 s7 s6 s5 s4 s3 s2 (inw 28) (SPH_C32 0x61D809CC) in
  let s0 := STEP n 4 s0 s7 s6 s5 s4 s3 s2 s1 (inw 23) (SPH_C32 0xFB21A991) in
  let s7 := STEP n 4 s7 s6 s5 s4 s3 s2 s1 s0 (inw 26) (SPH_C32 0x487CAC60) in
  let s6 := STEP n 4 s6 s5 s4 s3 s2 s1 s0 s7 (inw 6) (SPH_C32 0x5DEC8032) in
  let s5 := STEP n 4 s5 s4 s3 s2 s1 s0 s7 s6 (inw 30) (SPH_C32 0xEF845D5D) in
  let s4 := STEP n 4 s4 s3 s2 s1 s0 s7 s6 s5 (inw 20) (SPH_C32 0xE98575B1) in
  let s3 := STEP n 4 s3 s2 s1 s0 s7 s6 s5 s4 (inw 18) (SPH_C32 0xDC262302) in
  let s2 := STEP n 4 s2 s1 s0 s7 s6 s5 s4 s3 (inw 25) (SPH_C32 0xEB651B88) in
  let s1 := STEP n 4 s1 s0 s7 s6 s5 s4 s3 s2 (inw 19) (SPH_C32 0x23893E81) in
  let s0 := STEP n 4 s0 s7 s6 s5 s4 s3 s2 s1 (inw 3) (SPH_C32 0xD396ACC5) in
  let s7 := STEP n 4 s7 s6 s5 s4 s3 s2 s1 s0 (inw 22) (SPH_C32 0x0F6D6FF3) in
  let s6 := STEP n 4 s6 s5 s4 s3 s2 s1 s0 s7 (inw 11) (SPH_C32 0x83F44239) in
  let s5 := STEP n 4 s5 s4 s3 s2 s1 s0 s7 s6 (inw 31) (SPH_C32 0x2E0B4482) in
  let s4 := STEP n 4 s4 s3 s2 s1 s0 s7 s6 s5 (inw 21) (SPH_C32 0xA4842004) in
  let s3 := STEP n 4 s3 s2 s1 s0 s7 s6 s5 s4 (inw 8) (SPH_C32 0x69C8F04A) in
  let s2 := STEP n 4 s2 s1 s0 s7 s6 s5 s4 s3 (inw 27) (SPH_C32 0x9E1F9B5E) in
  let s1 := STEP n 4 s1 s0 s7 s6 s5 s4 s3 s2 (inw 12) (SPH_C32 0x21C66842) in
  let s0 := STEP n 4 s0 s7 s6 s5 s4 s3 s2 s1 (inw 9) (SPH_C32 0xF6E96C9A) in
  let s7 := STEP n 4 s7 s6 s5 s4 s3 s2 s1 s0 (inw 1) (SPH_C32 0x670C9C61) in
  let s6 := STEP n 4 s6 s5 s4 s3 s2 s1 s0 s7 (inw 29) (SPH_C32 0xABD388F0) in
  let s5 := STEP n 4 s5 s4 s3 s2 s1 s0 s7 s6 (inw 5) (SPH_C32 0x6A51A0D2) in
  let s4 := STEP n 4 s4 s3 s2 s1 s0 s7 s6 s5 (inw 15) (SPH_C32 0xD8542F68) in
  let s3 := STEP n 4 s3 s2 s1 s0 s7 s6 s5 s4 (inw 17) (SPH_C32 0x960FA728) in
  let s2 := STEP n 4 s2 s1 s0 s7 s6 s5 s4 s3 (inw 10) (SPH_C32 0xAB5133A3) in
  let s1 := STEP n 4 s1 s0 s7 s6 s5 s4 s3 s2 (inw 16) (SPH_C32 0x6EEF0B6C) in
  let s0 := STEP n 4 s0 s7 s6 s5 s4 s3 s2 s1 (inw 13) (SPH_C32 0x137A3BE4) in
  Regs s0 s1 s2 s3 s4 s5 s6 s7.

Definition PASS5 (n : nat) (inw : nat -> Z) (s : regs) : regs :=
  let '(Regs s0 s1 s2 s3 s4 s5 s6 s7) := s in
  let s7 := STEP n 5 s7 s6 s5 s4 s3 s2 s1 s0 (inw 27) (SPH_C32 0xBA3BF050) in
  let s6 := STEP n 5 s6 s5 s4 s3 s2 s1 s0 s7 (inw 3) (SPH_C32 0x7EFB2A98) in
  let s5 := STEP n 5 s5 s4 s3 s2 s1 s0 s7 s6 (inw 21) (SPH_C32 0xA1F1651D) in
  let s4 := STEP n 5 s4 s3 s2 s1 s0 s7 s6 s5 (inw 26) (SPH_C32 0x39AF0176) in
  let s3 := STEP n 5 s3 s2 s1 s0 s7 s6 s5 s4 (inw 17) (SPH_C32 0x66CA593E) in
  let s2 := STEP n 5 s2 s1 s0 s7 s6 s5 s4 s3 (inw 11) (SPH_C32 0x82430E88) in
  let s1 := STEP n 5 s1 s0 s7 s6 s5 s4 s3 s2 (inw 20) (SPH_C32 0x8CEE8619) in
  let s0 := STEP n 5 s0 s7 s6 s5 s4 s3 s2 s1 (inw 29) (SPH_C32 0x456F9FB4) in
  let s7 := STEP n 5 s7 s6 s5 s4 s3 s2 s1 s0 (inw 19) (SPH_C32 0x7D84A5C3) in
  let s6 := STEP n 5 s6 s5 s4 s3 s2 s1 s0 s7 (inw 0) (SPH_C32 0x3B8B5EBE) in
  let s5 := STEP n 5 s5 s4 s3 s2 s1 s0 s7 s6 (inw 12) (SPH_C32 0xE06F75D8) in
  let s4 := STEP n 5 s4 s3 s2 s1 s0 s7 s6 s5 (inw 7) (SPH_C32 0x85C12073) in
  let s3 := STEP n 5 s3 s2 s1 s0 s7 s6 s5 s4 (inw 13) (SPH_C32 0x401A449F) in
  let s2 := STEP n 5 s2 s1 s0 s7 s6 s5 s4 s3 (inw 8) (SPH_C32 0x56C16AA6) in
  let s1 := STEP n 5 s1 s0 s7 s6 s5 s4 s3 s2 (inw 31) (SPH_C32 0x4ED3AA62) in
  let s0 := STEP n 5 s0 s7 s6 s5 s4 s3 s2 s1 (inw 10) (SPH_C32 0x363F7706) in
  let s7 := STEP n 5 s7 s6 s5 s4 s3 s2 s1 s0 (inw 5) (SPH_C32 0x1BFEDF72) in
  let s6 := STEP n 5 s6 s5 s4 s3 s2 s1 s0 s7 (inw 9) (SPH_C32 0x429B023D) in
  let s5 := STEP n 5 s5 s4 s3 s2 s1 s0 s7 s6 (inw 14) (SPH_C32 0x37D0D724) in
  let s4 := STEP n 5 s4 s3 s2 s1 s0 s7 s6 s5 (inw 30) (SPH_C32 0xD00A1248) in
  let s3 := STEP n 5 s3 s2 s1 s0 s7 s6 s5 s4 (inw 18) (SPH_C32 0xDB0FEAD3) in
  let s2 := STEP n 5 s2 s1 s0 s7 s6 s5 s4 s3 (inw 6) (SPH_C32 0x49F1C09B) in
  let s1 := STEP n 5 s1 s0 s7 s6 s5 s4 s3 s2 (inw 28) (SPH_C32 0x075372C9) in
  let s0 := STEP n 5 s0 s7 s6 s5 s4 s3 s2 s1 (inw 24) (SPH_C32 0x80991B7B) in
  let s7 := STEP n 5 s7 s6 s5 s4 s3 s2 s1 s0 (inw 2) (SPH_C32 0x25D479D8) in
  let s6 := STEP n 5 s6 s5 s4 s3 s2 s1 s0 s7 (inw 23) (SPH_C32 0xF6E8DEF7) in
  let s5 := STEP n 5 s5 s4 s3 s2 s1 s0 s7 s6 (inw 16) (SPH_C32 0xE3FE501A) in
  let s4 := STEP n 5 s4 s3 s2 s1 s0 s7 s6 s5 (inw 22) (SPH_C32 0xB6794C3B) in
  let s3 := STEP n 5 s3 s2 s1 s0 s7 s6 s5 s4 (inw 4) (SPH_C32 0x976CE0BD) in
  let s2 := STEP n 5 s2 s1 s0 s7 s6 s5 s4 s3 (inw 1) (SPH_C32 0x04C006BA) in
  let s1 := STEP n 5 s1 s0 s7 s6 s5 s4 s3 s2 (inw 25) (SPH_C32 0xC1A94FB6) in
  let s0 := STEP n 5 s0 s7 s6 s5 s4 s3 s2 s1 (inw 15) (SPH_C32 0x409F60C4) in
  Regs s0 s1 s2 s3 s4 s5 s6 s7.

Local Open Scope Z_scope.

Definition UPDATE_STATE (s u : regs) : regs :=
  let '(Regs s0 s1 s2 s3 s4 s5 s6 s7) := s in
  let '(Regs u0 u1 u2 u3 u4 u5 u6 u7) := u in
  Regs (SPH_T32 (s0 + u0)) (SPH_T32 (s1 + u1)) (SPH_T32 (s2 + u2))
       (SPH_T32 (s3 + u3)) (SPH_T32 (s4 + u4)) (SPH_T32 (s5 + u5))
       (SPH_T32 (s6 + u6)) (SPH_T32 (s7 + u7)).

Definition CORE3 (inw : nat -> Z) (s : regs) : regs :=
  let u := s in                                       (* SAVE_STATE *)
  let s := PASS1 3 inw s in
  let s := PASS2 3 inw s in
  let s := PASS3 3 inw s in
  UPDATE_STATE s u.

Definition CORE4 (inw : nat -> Z) (s : regs) : regs :=
  let u := s in
  let s := PASS1 4 inw s in
  let s := PASS2 4 inw s in
  let s := PASS3 4 inw s in
  let s := PASS4 4 inw s in
  UPDATE_STATE s u.

Definition CORE5 (inw : nat -> Z) (s : regs) : regs :=
  let u := s in
  let s := PASS1 5 inw s in
  let s := PASS2 5 inw s in
  let s := PASS3 5 inw s in
  let s := PASS4 5 inw s in
  let s := PASS5 5 inw s in
  UPDATE_STATE s u.

(** [SPH_XCAT(CORE, PASSES)], for the three values [haval.c] gives [PASSES]. *)
Definition CORE (PASSES : nat) (inw : nat -> Z) (s : regs) : regs :=
  match PASSES with
  | 3%nat => CORE3 inw s
  | 4%nat => CORE4 inw s
  | 5%nat => CORE5 inw s
  | _ => s
  end.

(** ** The context *)

(** [sph_haval_context], in its [SPH_64] layout.  [buf] is the array
    [unsigned char buf[128]], read and written by index; the indices a
    computation touches are below 128. *)
Record sph_haval_context : Type := mk_context {
  buf : nat -> Z;
  s0 : Z; s1 : Z; s2 : Z; s3 : Z; s4 : Z; s5 : Z; s6 : Z; s7 : Z;
  olen : Z;
  passes : Z;
  count : Z
}.

(** [RSTATE] fills the state variables from the context [sc]. *)
Definition RSTATE (sc : sph_haval_context) : regs :=
  Regs (s0 sc) (s1 sc) (s2 sc) (s3 sc) (s4 sc) (s5 sc) (s6 sc) (s7 sc).

(** [WSTATE] updates the context [sc] from the state variables. *)
Definition WSTATE (sc : sph_haval_context) (s : regs) : sph_haval_context :=
  let '(Regs s0 s1 s2 s3 s4 s5 s6 s7) := s in
  mk_context (buf sc) s0 s1 s2 s3 s4 s5 s6 s7 (olen sc) (passes sc) (count sc).

Definition set_buf (sc : sph_haval_context) (b : nat -> Z) : sph_haval_context :=
  mk_context b (s0 sc) (s1 sc) (s2 sc) (s3 sc) (s4 sc) (s5 sc) (s6 sc) (s7 sc)
    (olen sc) (passes sc) (count sc).

Definition set_count (sc : sph_haval_context) (c : Z) : sph_haval_context :=
  mk_context (buf sc) (s0 sc) (s1 sc) (s2 sc) (s3 sc) (s4 sc) (s5 sc) (s6 sc)
    (s7 sc) (olen sc) (passes sc) c.

(** Stores into an array held in a context: one byte, and [memset]. *)
Definition buf_put (b : nat -> Z) (k : nat) (v : Z) : nat -> Z :=
  fun i => if Nat.eqb i k then v else b i.

Definition buf_fill (b : nat -> Z) (off len : nat) (v : Z) : nat -> Z :=
  fun i => if Nat.leb off i && Nat.ltb i (off + len) then v else b i.

(** Modelled from the spec: the little-endian codecs of [sph_types.h] (not
    among the sources), which lay a word out "per primitive's endianness
    convention", least significant byte first. *)
Definition le_bytes32 (val : Z) : list Z :=
  [Z.land val 0xFF; Z.land (Z.shiftr val 8) 0xFF;
   Z.land (Z.shiftr val 16) 0xFF; Z.land (Z.shiftr val 24) 0xFF].

Definition sph_enc32le (dst : list Z) (off : nat) (val : Z) : list Z :=
  mem_write dst off (le_bytes32 val).

Definition sph_dec32le_aligned (src : nat -> Z) (off : nat) : Z :=
  Z.lor (Z.lor (Z.lor (src off) (Z.shiftl (src (off + 1)%nat) 8))
                (Z.shiftl (src (off + 2)%nat) 16))
        (Z.shiftl (src (off + 3)%nat) 24).

(** Modelled from the spec: [SPH_T64] of [sph_types.h], the truncation to
    64 bits, and the 64-bit store. *)
Definition SPH_T64 (x : Z) : Z := Z.land x 0xFFFFFFFFFFFFFFFF.

Definition sph_enc64le_aligned (b : nat -> Z) (off : nat) (val : Z) : nat -> Z :=
  fold_left
    (fun b k => buf_put b (off + k)
                  (Z.land (Z.shiftr val (8 * Z.of_nat k)) 0xFF))
    (seq 0 8) b.

(** [IN_PREPARE(indata)] fills [X_var[32]] from the 128 bytes at [indata];
    [INW(i)] reads word [i] of it. *)
Definition IN_PREPARE (indata : nat -> Z) : list Z :=
  map (fun load_index => sph_dec32le_aligned indata (4 * load_index))
      (seq 0 32).

Definition INW (X_var : list Z) (i : nat) : Z := nth i X_var 0.

(** ** [haval.c] *)

(** Initialize a context.  [olen] is the output length in 32-bit words,
    [passes] the number of passes.  The buffer is left as it is. *)
Definition haval_init (sc : sph_haval_context) (olen passes : Z)
  : sph_haval_context :=
  mk_context (buf sc)
    (SPH_C32 0x243F6A88) (SPH_C32 0x85A308D3) (SPH_C32 0x13198A2E)
    (SPH_C32 0x03707344) (SPH_C32 0xA4093822) (SPH_C32 0x299F31D0)
    (SPH_C32 0x082EFA98) (SPH_C32 0xEC4E6C89)
    olen passes 0.

Definition mix128 (a0 a1 a2 a3 n : Z) : Z :=
  let tmp := Z.lor (Z.lor (Z.lor (Z.land a0 (SPH_C32 0x000000FF))
                                 (Z.land a1 (SPH_C32 0x0000FF00)))
                          (Z.land a2 (SPH_C32 0x00FF0000)))
                   (Z.land a3 (SPH_C32 0xFF000000)) in
  if 0 <? n then SPH_ROTL32 tmp n else tmp.

Definition mix160_0 (x5 x6 x7 : Z) : Z :=
  let tmp := Z.lor (Z.lor (Z.land x5 (SPH_C32 0x01F80000))
                          (Z.land x6 (SPH_C32 0xFE000000)))
                   (Z.land x7 (SPH_C32 0x0000003F)) in
  SPH_ROTL32 tmp 13.

Definition mix160_1 (x5 x6 x7 : Z) : Z :=
  let tmp := Z.lor (Z.lor (Z.land x5 (SPH_C32 0xFE000000))
                          (Z.land x6 (SPH_C32 0x0000003F)))
                   (Z.land x7 (SPH_C32 0x00000FC0)) in
  SPH_ROTL32 tmp 7.

Definition mix160_2 (x5 x6 x7 : Z) : Z :=
  Z.lor (Z.lor (Z.land x5 (SPH_C32 0x0000003F))
               (Z.land x6 (SPH_C32 0x00000FC0)))
        (Z.land x7 (SPH_C32 0x0007F000)).

Definition mix160_3 (x5 x6 x7 : Z) : Z :=
  let tmp := Z.lor (Z.lor (Z.land x5 (SPH_C32 0x00000FC0))
                          (Z.land x6 (SPH_C32 0x0007F000)))
                   (Z.land x7 (SPH_C32 0x01F80000)) in
  Z.shiftr tmp 6.

Definition mix160_4 (x5 x6 x7 : Z) : Z :=
  let tmp := Z.lor (Z.lor (Z.land x5 (SPH_C32 0x0007F000))
                          (Z.land x6 (SPH_C32 0x01F80000)))
                   (Z.land x7 (SPH_C32 0xFE000000)) in
  Z.shiftr tmp 12.

Definition mix192_0 (x6 x7 : Z) : Z :=
  let tmp := Z.lor (Z.land x6 (SPH_C32 0xFC000000))
                   (Z.land x7 (SPH_C32 0x0000001F)) in
  SPH_ROTL32 tmp 6.

Definition mix192_1 (x6 x7 : Z) : Z :=
  Z.lor (Z.land x6 (SPH_C32 0x0000001F)) (Z.land x7 (SPH_C32 0x000003E0)).

Definition mix192_2 (x6 x7 : Z) : Z :=
  Z.shiftr (Z.lor (Z.land x6 (SPH_C32 0x000003E0))
                  (Z.land x7 (SPH_C32 0x0000FC00))) 5.

Definition mix192_3 (x6 x7 : Z) : Z :=
  Z.shiftr (Z.lor (Z.land x6 (SPH_C32 0x0000FC00))
                  (Z.land x7 (SPH_C32 0x001F0000))) 10.

Definition mix192_4 (x6 x7 : Z) : Z :=
  Z.shiftr (Z.lor (Z.land x6 (SPH_C32 0x001F0000))
                  (Z.land x7 (SPH_C32 0x03E00000))) 16.

Definition mix192_5 (x6 x7 : Z) : Z :=
  Z.shiftr (Z.lor (Z.land x6 (SPH_C32 0x03E00000))
                  (Z.land x7 (SPH_C32 0xFC000000))) 21.

(** Write out the HAVAL output, tailored to the requested length.  The
    [switch] has no default: another [olen] writes nothing. *)
Definition haval_out (sc : sph_haval_context) (dst : list Z) : list Z :=
  let '(Regs s0 s1 s2 s3 s4 s5 s6 s7) := RSTATE sc in
  let buf := dst in
  match olen sc with
  | 4 =>
    let buf := sph_enc32le buf 0 (SPH_T32 (s0 + mix128 s7 s4 s5 s6 24)) in
    let buf := sph_enc32le buf 4 (SPH_T32 (s1 + mix128 s6 s7 s4 s5 16)) in
    let buf := sph_enc32le buf 8 (SPH_T32 (s2 + mix128 s5 s6 s7 s4 8)) in
    let buf := sph_enc32le buf 12 (SPH_T32 (s3 + mix128 s4 s5 s6 s7 0)) in
    buf
  | 5 =>
    let buf := sph_enc32le buf 0 (SPH_T32 (s0 + mix160_0 s5 s6 s7)) in
    let buf := sph_enc32le buf 4 (SPH_T32 (s1 + mix160_1 s5 s6 s7)) in
    let buf := sph_enc32le buf 8 (SPH_T32 (s2 + mix160_2 s5 s6 s7)) in
    let buf := sph_enc32le buf 12 (SPH_T32 (s3 + mix160_3 s5 s6 s7)) in
    let buf := sph_enc32le buf 16 (SPH_T32 (s4 + mix160_4 s5 s6 s7)) in
    buf
  | 6 =>
    let buf := sph_enc32le buf 0 (SPH_T32 (s0 + mix192_0 s6 s7)) in
    let buf := sph_enc32le buf 4 (SPH_T32 (s1 + mix192_1 s6 s7)) in
    let buf := sph_enc32le buf 8 (SPH_T32 (s2 + mix192_2 s6 s7)) in
    let buf := sph_enc32le buf 12 (SPH_T32 (s3 + mix192_3 s6 s7)) in
    let buf := sph_enc32le buf 16 (SPH_T32 (s4 + mix192_4 s6 s7)) in
    let buf := sph_enc32le buf 20 (SPH_T32 (s5 + mix192_5 s6 s7)) in
    buf
  | 7 =>
    let buf := sph_enc32le buf 0 (SPH_T32 (s0 + Z.land (Z.shiftr s7 27) 0x1F)) in
    let buf := sph_enc32le buf 4 (SPH_T32 (s1 + Z.land (Z.shiftr s7 22) 0x1F)) in
    let buf := sph_enc32le buf 8 (SPH_T32 (s2 + Z.land (Z.shiftr s7 18) 0x0F)) in
    let buf := sph_enc32le buf 12 (SPH_T32 (s3 + Z.land (Z.shiftr s7 13) 0x1F)) in
    let buf := sph_enc32le buf 16 (SPH_T32 (s4 + Z.land (Z.shiftr s7 9) 0x0F)) in
    let buf := sph_enc32le buf 20 (SPH_T32 (s5 + Z.land (Z.shiftr s7 4) 0x1F)) in
    let buf := sph_enc32le buf 24 (SPH_T32 (s6 + Z.land s7 0x0F)) in
    buf
  | 8 =>
    let buf := sph_enc32le buf 0 s0 in
    let buf := sph_enc32le buf 4 s1 in
    let buf := sph_enc32le buf 8 s2 in
    let buf := sph_enc32le buf 12 s3 in
    let buf := sph_enc32le buf 16 s4 in
    let buf := sph_enc32le buf 20 s5 in
    let buf := sph_enc32le buf 24 s6 in
    let buf := sph_enc32le buf 28 s7 in
    buf
  | _ => buf
  end.

(** [sph_haval_3_comp], [sph_haval_4_comp], [sph_haval_5_comp]: the
    compression function on 32 decoded message words [msg] and the eight
    words [val], which it replaces. *)
Definition RVAL (val : list Z) : regs :=
  Regs (nth 0 val 0) (nth 1 val 0) (nth 2 val 0) (nth 3 val 0)
       (nth 4 val 0) (nth 5 val 0) (nth 6 val 0) (nth 7 val 0).

Definition WVAL (s : regs) : list Z :=
  let '(Regs s0 s1 s2 s3 s4 s5 s6 s7) := s in [s0; s1; s2; s3; s4; s5; s6; s7].

Definition INMSG (msg : list Z) (i : nat) : Z := nth i msg 0.

Definition sph_haval_3_comp (msg val : list Z) : list Z :=
  WVAL (CORE3 (INMSG msg) (RVAL val)).

Definition sph_haval_4_comp (msg val : list Z) : list Z :=
  WVAL (CORE4 (INMSG msg) (RVAL val)).

Definition sph_haval_5_comp (msg val : list Z) : list Z :=
  WVAL (CORE5 (INMSG msg) (RVAL val)).

(** ** The update and close loops *)

(** Modelled from the spec: [haval_helper.c], which [haval.c] includes once
    for each pass count and which defines [haval3], [haval4], [haval5] and
    their [_close] functions, is not among the sources.  The update absorbs
    [len] bytes: "absorbed bytes accumulate in ctx's internal buffer and are
    compressed in fixed-size blocks as they fill, updating the internal state
    vector and length counter".  The block is the 128 bytes of [buf], read by
    [IN_PREPARE]; the fill level is the low seven bits of [count]. *)
Definition haval_byte (PASSES : nat) (sc : sph_haval_context) (x : Z)
  : sph_haval_context :=
  let current := Z.to_nat (Z.land (count sc) 127) in
  let sc := set_buf sc (buf_put (buf sc) current x) in
  let current := S current in
  let sc :=
    if Nat.eqb current 128
    then WSTATE sc (CORE PASSES (INW (IN_PREPARE (buf sc))) (RSTATE sc))
    else sc in
  set_count sc (SPH_T64 (count sc + 1)).

(** Modelled from the spec: [haval3], [haval4] and [haval5] of
    [haval_helper.c], the update by [len] bytes found at [data]; "if len ==
    0 the call is a no-op". *)
Definition haval (PASSES : nat) (sc : sph_haval_context)
    (data : list Z) (len : nat) : sph_haval_context :=
  fold_left (haval_byte PASSES) (firstn len data) sc.

(** Modelled from the spec: the close of [haval_helper.c] (not among the
    sources) "applies primitive-specific padding (a 1 bit, zero bits, and an
    encoded bit-length), processes the final block(s), writes the digest in
    the primitive's defined byte order to out, and reinitializes ctx as if
    init had just been called".  HAVAL's padding carries, before the 64-bit
    little-endian bit length, the version and pass count in byte 118 and the
    output length in byte 119 ("the requested length is encoded within the
    padding data"): [haval_trailer] writes them into the last block,
    [haval_padded] pads and processes, [haval_close] writes out and
    reinitializes.  [ub] and [n] are the extra bits of
    [addbits_and_close]. *)
Definition haval_trailer (PASSES : nat) (sc : sph_haval_context)
    (b : nat -> Z) (current : nat) : nat -> Z :=
  let b := buf_fill b current (118 - current) 0 in
  let b := buf_put b 118
             (Z.land (Z.lor 0x01 (Z.shiftl (Z.of_nat PASSES) 3)) 0xFF) in
  let b := buf_put b 119 (Z.land (Z.shiftl (olen sc) 3) 0xFF) in
  sph_enc64le_aligned b 120 (SPH_T64 (Z.shiftl (count sc) 3)).

(** Modelled from the spec: the first half of the close of
    [haval_helper.c], the context with the padding applied and the final
    block or blocks processed. *)
Definition haval_padded (PASSES : nat) (sc : sph_haval_context) (ub n : Z)
  : sph_haval_context :=
  let current := Z.to_nat (Z.land (count sc) 127) in
  let b := buf_put (buf sc) current
             (Z.land (Z.lor (Z.shiftl 0x01 n)
                            (Z.shiftr (Z.land ub 0xFF) (8 - n))) 0xFF) in
  let current := S current in
  let s := RSTATE sc in
  let '(b, s, current) :=
    if Nat.ltb 118 current
    then
      let b := buf_fill b current (128 - current) 0 in
      (b, CORE PASSES (INW (IN_PREPARE b)) s, 0%nat)
    else (b, s, current) in
  let b := haval_trailer PASSES sc b current in
  let s := CORE PASSES (INW (IN_PREPARE b)) s in
  WSTATE (set_buf sc b) s.

(** Modelled from the spec: [haval3_close], [haval4_close] and
    [haval5_close] of [haval_helper.c]; the digest goes to [dst] through
    [haval_out] and the context is reinitialized through [haval_init]. *)
Definition haval_close (PASSES : nat) (sc : sph_haval_context)
    (ub n : Z) (dst : list Z) : sph_haval_context * list Z :=
  let sc := haval_padded PASSES sc ub n in
  let dst := haval_out sc dst in
  (haval_init sc (olen sc) (passes sc), dst).

(** ** The API functions: the macro [API(xxx, y)] *)

Definition sph_haval_init (xxx : Z) (y : nat) (cc : sph_haval_context)
  : sph_haval_context :=
  haval_init cc (Z.shiftr xxx 5) (Z.of_nat y).

Definition sph_haval (xxx : Z) (y : nat) (cc : sph_haval_context)
    (data : list Z) (len : nat) : sph_haval_context :=
  haval y cc data len.

Definition sph_haval_close (xxx : Z) (y : nat) (cc : sph_haval_context)
    (dst : list Z) : sph_haval_context * list Z :=
  haval_close y cc 0 0 dst.

Definition sph_haval_addbits_and_close (xxx : Z) (y : nat)
    (cc : sph_haval_context) (ub n : Z) (dst : list Z)
  : sph_haval_context * list Z :=
  haval_close y cc ub n dst.

(** The fifteen instances [API(128, 3)] to [API(256, 5)]. *)
Definition API_instances : list (Z * nat) :=
  [(128, 3%nat); (128, 4%nat); (128, 5%nat);
   (160, 3%nat); (160, 4%nat); (160, 5%nat);
   (192, 3%nat); (192, 4%nat); (192, 5%nat);
   (224, 3%nat); (224, 4%nat); (224, 5%nat);
   (256, 3%nat); (256, 4%nat); (256, 5%nat)].

Definition sph_haval256_5_init := sph_haval_init 256 5.
Definition sph_haval256_5 := sph_haval 256 5.
Definition sph_haval256_5_close := sph_haval_close 256 5.

(** A context of static storage: every byte zero. *)
Definition zero_context : sph_haval_context :=
  mk_context (fun _ => 0) 0 0 0 0 0 0 0 0 0 0 0.

(** A context after [init] and a history of update calls, each with its
    data and length. *)
Definition absorbed (xxx : Z) (y : nat) (cc : sph_haval_context)
    (history : list (list Z * nat)) : sph_haval_context :=
  fold_left (fun cc h => sph_haval xxx y cc (fst h) (snd h)) history cc.

(** The HAVAL-256/5 digest of a message: what the three calls write, from a
    context of static storage into a buffer of 32 bytes. *)
Definition haval256_5_digest (m : list Z) : list Z :=
  firstn 32
    (snd (sph_haval256_5_close
            (sph_haval256_5 (sph_haval256_5_init zero_context) m (length m))
            (repeat 0 32))).

(** ** Notions the properties are stated with *)

(** The digest of a message by the member [API(xxx, y)], from a context of
    static storage into a buffer of the digest's size. *)
Definition hash_of (xxx : Z) (y : nat) (m : list Z) : list Z :=
  snd (sph_haval_close xxx y
         (sph_haval xxx y (sph_haval_init xxx y zero_context) m (length m))
         (repeat 0 (Z.to_nat (xxx / 8)))).

(** Two buffers agree below [n]. *)
Definition agree (n : nat) (b b' : nat -> Z) : Prop :=
  forall i, (i < n)%nat -> b i = b' i.

(** The fill level of the buffer: the pending bytes lie below it. *)
Definition fill_level (sc : sph_haval_context) : nat :=
  Z.to_nat (Z.land (count sc) 127).

(** An update that also counts the blocks it compresses: one each time a
    byte fills the buffer. *)
Definition haval_counting (PASSES : nat) (sc : sph_haval_context)
    (data : list Z) (len : nat) : sph_haval_context * nat :=
  fold_left
    (fun acc x =>
       (haval_byte PASSES (fst acc) x,
        if Nat.eqb (S (fill_level (fst acc))) 128
        then S (snd acc) else snd acc))
    (firstn len data) (sc, 0%nat).

(** The same state words, parameters and count, and the same pending
    bytes: [init] leaves the buffer alone, and the bytes at and above the
    fill level are written before any block is read. *)
Record equiv (a b : sph_haval_context) : Prop := mk_equiv {
  equiv_state : RSTATE a = RSTATE b;
  equiv_olen : olen a = olen b;
  equiv_passes : passes a = passes b;
  equiv_count : count a = count b;
  equiv_buf : agree (fill_level a) (buf a) (buf b)
}.

(** The eight state words in little-endian order: the output for 256 bits. *)
Definition out8 (s : regs) : list Z :=
  let '(Regs s0 s1 s2 s3 s4 s5 s6 s7) := s in
  le_bytes32 s0 ++ le_bytes32 s1 ++ le_bytes32 s2 ++ le_bytes32 s3
  ++ le_bytes32 s4 ++ le_bytes32 s5 ++ le_bytes32 s6 ++ le_bytes32 s7.

End Haval.

(** ** Further notions for HAVAL *)

Module HavalNotions.
Import Haval.

(** A value of an [unsigned char]. *)
Definition is_byte (b : Z) : Prop := 0 <= b < 256.

(** Byte [k] of a word, counted from the least significant one: the byte
    [sph_enc32le] stores at offset [k]. *)
Definition byte_of (k : Z) (x : Z) : Z := Z.land (Z.shiftr x (8 * k)) 0xFF.

(** The bytes of a block: the 128 bytes that [IN_PREPARE] reads. *)
Definition block_bytes (b : nat -> Z) : list Z := map b (seq 0 128).

(** The words [haval_out] passes to [sph_enc32le], in the order of the
    calls, for each case of its [switch]. *)
Definition out_words (sc : sph_haval_context) : list Z :=
  let '(Regs s0 s1 s2 s3 s4 s5 s6 s7) := RSTATE sc in
  match olen sc with
  | 4 => [SPH_T32 (s0 + mix128 s7 s4 s5 s6 24);
          SPH_T32 (s1 + mix128 s6 s7 s4 s5 16);
          SPH_T32 (s2 + mix128 s5 s6 s7 s4 8);
          SPH_T32 (s3 + mix128 s4 s5 s6 s7 0)]
  | 5 => [SPH_T32 (s0 + mix160_0 s5 s6 s7);
          SPH_T32 (s1 + mix160_1 s5 s6 s7);
          SPH_T32 (s2 + mix160_2 s5 s6 s7);
          SPH_T32 (s3 + mix160_3 s5 s6 s7);
          SPH_T32 (s4 + mix160_4 s5 s6 s7)]
  | 6 => [SPH_T32 (s0 + mix192_0 s6 s7);
          SPH_T32 (s1 + mix192_1 s6 s7);
          SPH_T32 (s2 + mix192_2 s6 s7);
          SPH_T32 (s3 + mix192_3 s6 s7);
          SPH_T32 (s4 + mix192_4 s6 s7);
          SPH_T32 (s5 + mix192_5 s6 s7)]
  | 7 => [SPH_T32 (s0 + Z.land (Z.shiftr s7 27) 0x1F);
          SPH_T32 (s1 + Z.land (Z.shiftr s7 22) 0x1F);
          SPH_T32 (s2 + Z.land (Z.shiftr s7 18) 0x0F);
          SPH_T32 (s3 + Z.land (Z.shiftr s7 13) 0x1F);
          SPH_T32 (s4 + Z.land (Z.shiftr s7 9) 0x0F);
          SPH_T32 (s5 + Z.land (Z.shiftr s7 4) 0x1F);
          SPH_T32 (s6 + Z.land s7 0x0F)]
  | 8 => [s0; s1; s2; s3; s4; s5; s6; s7]
  | _ => []
  end.

End HavalNotions.

(** ** The primitives [hashblock.h] calls

    Each primitive comes with a context type and the three functions
    [sph_X_init], [sph_X] and [sph_X_close].  Only HAVAL is among the sources;
    the others are taken through this interface. *)

Inductive primitive : Type :=
  | Blake512 | Bmw512 | CubeHash384 | CubeHash512 | Echo512 | Fugue512
  | Groestl384 | Groestl512 | Hamsi512 | Haval256_5 | Jh512 | Keccak512
  | Luffa512 | Panama | Ripemd160 | Sha512 | Shabal512 | Shavite512
  | Simd512 | Skein512 | Tiger | Tiger2 | Whirlpool | Whirlpool1.

Definition primitive_eq_dec (p q : primitive) : {p = q} + {p <> q}.
Proof. decide equality. Defined.

(** Modelled from the spec: the output size of each primitive in bits, the
    macro [SPH_SIZE_X] of its header.  Of these only [SPH_SIZE_haval256_5]
    is in the sources; the other headers are not, and their sizes are those
    the names of section 2 carry (SHA-512, RIPEMD-160, CubeHash-512/384,
    ...), with the 192 bits of Tiger and Tiger2 and the 256 bits of
    Panama. *)
Definition SPH_SIZE (p : primitive) : nat :=
  match p with
  | CubeHash384 | Groestl384 => 384
  | Haval256_5 | Panama => 256
  | Ripemd160 => 160
  | Tiger | Tiger2 => 192
  | _ => 512
  end.

(** A primitive: its context, its three functions, and the contract of
    section 4.1.  [init] sets the context to the primitive's starting state,
    [update] absorbs [len] bytes found at [data], [close] writes the digest
    at the start of [dst] and returns the context for reuse.  [digest] is the
    function of the message alone that the primitive's reference defines;
    [hash_ok] says the three calls compute it, whatever the context held
    before [init] and whatever the output buffer held beyond the digest. *)
Record sph_primitive : Type := {
  context : Type;
  size : nat;
  init : context -> context;
  update : context -> list Z -> nat -> context;
  close : context -> list Z -> context * list Z;
  digest : list Z -> list Z;
  digest_length : forall m, length (digest m) = size;
  hash_ok : forall cc data len dst,
    (size <= length dst)%nat ->
    snd (close (update (init cc) data len) dst)
    = digest (firstn len data) ++ skipn size dst
}.

(** What [hashblock.h] includes and the sources do not contain: the sph
    primitives, of the sizes above, and [uint512] of [uint256.h].
    [uint512_new] is the content of a default-constructed [uint512], 64
    bytes in memory order. *)
Class Externals : Type := {
  sph : primitive -> sph_primitive;
  sph_size : forall p, size (sph p) = (SPH_SIZE p / 8)%nat;
  uint512_new : list Z;
  uint512_new_length : length uint512_new = 64%nat
}.

(** Modelled from the spec: [uint512::trim256] of [uint256.h], which is not
    among the sources, takes "exactly the low-order 32 bytes of the 64-byte
    buffer in the buffer's canonical byte order", "i.e. first 32 bytes in the
    digest's native byte order". *)
Definition trim256 (b : list Z) : list Z := firstn 32 b.

(** ** The process: global objects and the calls made so far *)

(** The calls into the primitive library, in the order they are made, with
    the bytes each update absorbs and the digest each close writes. *)
Inductive event : Type :=
  | Init (p : primitive)
  | Update (p : primitive) (data : list Z)
  | Close (p : primitive) (out : list Z).

(** A process holds the objects of static storage [G] of the translation
    unit and the calls made so far. *)
Record process (G : Type) : Type := mk_process {
  zs : G;
  calls : list event
}.
Arguments mk_process {G} _ _.
Arguments zs {G} _.
Arguments calls {G} _.

Definition M (G A : Type) : Type := process G -> A * process G.

Definition ret {G A} (a : A) : M G A := fun w => (a, w).

Definition bind {G A B} (c : M G A) (k : A -> M G B) : M G B :=
  fun w => let (a, w') := c w in k a w'.

Notation "x <- c1 ;; c2" := (bind c1 (fun x => c2))
  (at level 61, c1 at next level, right associativity).
Notation "' pat <- c1 ;; c2" :=
  (bind c1 (fun x => match x with pat => c2 end))
  (at level 61, pat pattern, c1 at next level, right associativity).
Notation "c1 ;; c2" := (bind c1 (fun _ => c2))
  (at level 61, right associativity).

Definition log {G} (w : process G) (e : event) : process G :=
  mk_process (zs w) (calls w ++ [e]).

Section Calls.
Context {E : Externals} {G : Type}.

(** [sph_X_init(&cc)]. *)
Definition sph_init (p : primitive) (cc : context (sph p))
  : M G (context (sph p)) :=
  fun w => (init (sph p) cc, log w (Init p)).

(** [sph_X(&cc, data, len)]. *)
Definition sph_ (p : primitive) (cc : context (sph p))
    (data : list Z) (len : nat) : M G (context (sph p)) :=
  fun w => (update (sph p) cc data len, log w (Update p (firstn len data))).

(** [sph_X_close(&cc, dst)]. *)
Definition sph_close (p : primitive) (cc : context (sph p)) (dst : list Z)
  : M G (context (sph p) * list Z) :=
  fun w =>
    let r := close (sph p) cc dst in
    (r, log w (Close p (firstn (size (sph p)) (snd r)))).

End Calls.

(** The bytes the update calls absorbed and the digests the close calls
    wrote, each in call order. *)
Definition updates (tr : list event) : list (list Z) :=
  flat_map (fun e => match e with Update _ d => [d] | _ => [] end) tr.

Definition closes (tr : list event) : list (list Z) :=
  flat_map (fun e => match e with Close _ d => [d] | _ => [] end) tr.

(** ** Global contexts

    The objects [GLOBAL sph_X_context z] of a translation unit: [V] names
    them and [prim] gives the primitive whose context each one is. *)

Section Globals.
Context {E : Externals} {V : Type}.
Variable V_eq_dec : forall v v' : V, {v = v'} + {v <> v'}.
Variable prim : V -> primitive.

Definition globals : Type := forall v : V, context (sph (prim v)).

Definition gstore (g : globals) (v : V) (cc : context (sph (prim v)))
  : globals :=
  fun v' =>
    match V_eq_dec v v' with
    | left e => eq_rect v (fun x => context (sph (prim x))) cc v' e
    | right _ => g v'
    end.

(** [sph_X_init(&z)] on a global context [z]. *)
Definition ginit (v : V) : M globals unit :=
  fun w =>
    let (cc, w') := sph_init (prim v) (zs w v) w in
    (tt, mk_process (gstore (zs w') v cc) (calls w')).

(** [memcpy(&ctx, &z, sizeof(z))]: the value the local context takes. *)
Definition gcopy (v : V) : M globals (context (sph (prim v))) :=
  fun w => (zs w v, w).

End Globals.

(** ** The chain as the design document gives it *)

Section Chain.
Context {E : Externals}.

(** A Wide Digest Buffer after a step closed into it: the digest at the
    start of a newly constructed [uint512]. *)
Definition wide (d : list Z) : list Z := mem_write uint512_new 0 d.

(** The buffers of a chain computation, one for each step: step 1 hashes the
    message, each later step the 64 bytes of the buffer before it. *)
Fixpoint chain_buffers (steps : list primitive) (input : list Z)
  : list (list Z) :=
  match steps with
  | [] => []
  | p :: rest =>
    let b := wide (digest (sph p) input) in
    b :: chain_buffers rest (firstn 64 b)
  end.

Fixpoint chain_calls (steps : list primitive) (input : list Z)
  : list event :=
  match steps with
  | [] => []
  | p :: rest =>
    let d := digest (sph p) input in
    Init p :: Update p input :: Close p d
      :: chain_calls rest (firstn 64 (wide d))
  end.

(** [computeChainHash(message, variant)], the variant given by its steps. *)
Definition computeChainHash (steps : list primitive) (message : list Z)
  : list Z :=
  trim256 (last (chain_buffers steps message) uint512_new).

End Chain.

(** ** [hashblock.h], the definition with five steps *)

Module Chain5.

(** The four global contexts [z_keccak], [z_panama], [z_cubehash] and
    [z_whirlpool]. *)
Inductive zvar : Type := z_keccak | z_panama | z_cubehash | z_whirlpool.

Definition zvar_primitive (v : zvar) : primitive :=
  match v with
  | z_keccak => Keccak512
  | z_panama => Panama
  | z_cubehash => CubeHash512
  | z_whirlpool => Whirlpool
  end.

Definition zvar_eq_dec (v v' : zvar) : {v = v'} + {v <> v'}.
Proof. decide equality. Defined.

Section WithExternals.
Context {E : Externals}.

Definition zstate : Type := globals zvar_primitive.
Definition zinit := ginit zvar_eq_dec zvar_primitive.
Definition zcopy := gcopy zvar_primitive.

Definition fillz : M zstate unit :=
  zinit z_keccak ;;
  zinit z_cubehash ;;
  zinit z_panama ;;
  zinit z_whirlpool.

Definition ZKECCAK := zcopy z_keccak.
Definition ZCUBEHASH := zcopy z_cubehash.
Definition ZPANAMA := zcopy z_panama.
Definition ZWHIRLPOOL := zcopy z_whirlpool.

(** The automatic variables of [Hash9] as the function finds them: the four
    contexts are declared without an initializer, and hold whatever the stack
    held. *)
Record locals : Type := {
  ctx_keccak512 : context (sph Keccak512);
  ctx_cubehash512 : context (sph CubeHash512);
  ctx_panama : context (sph Panama);
  ctx_whirlpool : context (sph Whirlpool)
}.

(** [static unsigned char pblank[1]]. *)
Definition pblank : list Z := [0].

(** The body of [Hash9] up to its [return]: the array [hash[5]] as the
    return statement finds it.  [m] is the range from [pbegin] to [pend], in
    bytes. *)
Definition Hash9_hash (frame : locals) (m : list Z)
  : M zstate (list (list Z)) :=
  let ctx_keccak512 := ctx_keccak512 frame in
  let ctx_cubehash512 := ctx_cubehash512 frame in
  let ctx_panama := ctx_panama frame in
  let ctx_whirlpool := ctx_whirlpool frame in
  let hash0 := uint512_new in
  let hash1 := uint512_new in
  let hash2 := uint512_new in
  let hash3 := uint512_new in
  let hash4 := uint512_new in

  ctx_panama <- sph_init Panama ctx_panama ;;
  ctx_panama <- sph_ Panama ctx_panama
                  (match m with [] => pblank | _ => m end) (length m) ;;
  '(ctx_panama, hash0) <- sph_close Panama ctx_panama hash0 ;;

  ctx_whirlpool <- sph_init Whirlpool ctx_whirlpool ;;
  ctx_whirlpool <- sph_ Whirlpool ctx_whirlpool hash0 64 ;;
  '(ctx_whirlpool, hash1) <- sph_close Whirlpool ctx_whirlpool hash1 ;;

  ctx_keccak512 <- sph_init Keccak512 ctx_keccak512 ;;
  ctx_keccak512 <- sph_ Keccak512 ctx_keccak512 hash1 64 ;;
  '(ctx_keccak512, hash2) <- sph_close Keccak512 ctx_keccak512 hash2 ;;

  ctx_panama <- sph_init Panama ctx_panama ;;
  ctx_panama <- sph_ Panama ctx_panama hash2 64 ;;
  '(ctx_panama, hash3) <- sph_close Panama ctx_panama hash3 ;;

  ctx_cubehash512 <- sph_init CubeHash512 ctx_cubehash512 ;;
  ctx_cubehash512 <- sph_ CubeHash512 ctx_cubehash512 hash3 64 ;;
  '(ctx_cubehash512, hash4) <- sph_close CubeHash512 ctx_cubehash512 hash4 ;;

  ret [hash0; hash1; hash2; hash3; hash4].

(** [return hash[4].trim256();] *)
Definition Hash9 (frame : locals) (m : list Z) : M zstate (list Z) :=
  hash <- Hash9_hash frame m ;;
  ret (trim256 (nth 4 hash [])).

End WithExternals.

(** The steps of this definition, in order. *)
Definition steps : list primitive :=
  [Panama; Whirlpool; Keccak512; Panama; CubeHash512].

End Chain5.


(** ** [hashblock.h], the definition with twenty-four steps *)

Module Chain24.

(** The twenty-three global contexts the header declares, and the two
    further objects [z_lowgroestl] and [tiger2] that [fillz] names: the
    header declares neither, and a translation unit that expands [fillz]
    has to. *)
Inductive zvar : Type :=
  | z_blake
  | z_sha
  | z_bmw
  | z_lowcube
  | z_whirlpool1
  | z_groestl
  | z_jh
  | z_keccak
  | z_skein
  | z_luffa
  | z_tiger
  | z_tiger2
  | z_ripemd
  | z_cubehash
  | z_panama
  | z_shavite
  | z_simd
  | z_echo
  | z_hamsi
  | z_fugue
  | z_shabal
  | z_haval
  | z_whirlpool
  | z_lowgroestl
  | tiger2.


Definition zvar_primitive (v : zvar) : primitive :=
  match v with
  | z_blake => Blake512
  | z_sha => Sha512
  | z_bmw => Bmw512
  | z_lowcube => CubeHash384
  | z_whirlpool1 => Whirlpool1
  | z_groestl => Groestl512
  | z_jh => Jh512
  | z_keccak => Keccak512
  | z_skein => Skein512
  | z_luffa => Luffa512
  | z_tiger => Tiger
  | z_tiger2 => Tiger2
  | z_ripemd => Ripemd160
  | z_cubehash => CubeHash512
  | z_panama => Panama
  | z_shavite => Shavite512
  | z_simd => Simd512
  | z_echo => Echo512
  | z_hamsi => Hamsi512
  | z_fugue => Fugue512
  | z_shabal => Shabal512
  | z_haval => Haval256_5
  | z_whirlpool => Whirlpool
  | z_lowgroestl => Groestl384
  | tiger2 => Tiger2
  end.

Definition zvar_eq_dec (v v' : zvar) : {v = v'} + {v <> v'}.
Proof. decide equality. Defined.

Section WithExternals.
Context {E : Externals}.

Definition zstate : Type := globals zvar_primitive.
Definition zinit := ginit zvar_eq_dec zvar_primitive.
Definition zcopy := gcopy zvar_primitive.

Definition fillz : M zstate unit :=
  zinit z_blake ;;
  zinit z_sha ;;
  zinit z_bmw ;;
  zinit z_groestl ;;
  zinit z_jh ;;
  zinit z_keccak ;;
  zinit z_skein ;;
  zinit z_luffa ;;
  zinit z_tiger ;;
  zinit z_ripemd ;;
  zinit z_cubehash ;;
  zinit z_panama ;;
  zinit z_shavite ;;
  zinit z_simd ;;
  zinit z_echo ;;
  zinit z_hamsi ;;
  zinit z_fugue ;;
  zinit z_shabal ;;
  zinit z_haval ;;
  zinit z_whirlpool ;;
  zinit z_lowcube ;;
  zinit z_whirlpool1 ;;
  zinit z_lowgroestl ;;
  zinit tiger2.

Definition ZBLAKE := zcopy z_blake.
Definition ZSHA512 := zcopy z_sha.
Definition ZBMW := zcopy z_bmw.
Definition ZGROESTL := zcopy z_groestl.
Definition ZJH := zcopy z_jh.
Definition ZKECCAK := zcopy z_keccak.
Definition ZSKEIN := zcopy z_skein.
Definition ZLUFFA := zcopy z_luffa.
Definition ZTIGER := zcopy z_tiger.
Definition ZRIPEMD := zcopy z_ripemd.
Definition ZCUBEHASH := zcopy z_cubehash.
Definition ZPANAMA := zcopy z_panama.
Definition ZSHAVITE := zcopy z_shavite.
Definition ZSIMD := zcopy z_simd.
Definition ZECHO := zcopy z_echo.
Definition ZHAMSI := zcopy z_hamsi.
Definition ZFUGUE := zcopy z_fugue.
Definition ZSHABAL := zcopy z_shabal.
Definition ZHAVAL := zcopy z_haval.
Definition ZWHIRLPOOL := zcopy z_whirlpool.
Definition ZLOWCUBE := zcopy z_lowcube.
Definition ZWHIRLPOOL1 := zcopy z_whirlpool1.
Definition ZTIGER2 := zcopy z_tiger2.

(** The automatic variables of [Hash9] as the function finds them. *)
Record locals : Type := {
  ctx_blake : context (sph Blake512);
  ctx_sha : context (sph Sha512);
  ctx_bmw : context (sph Bmw512);
  ctx_groestl : context (sph Groestl512);
  ctx_jh : context (sph Jh512);
  ctx_keccak : context (sph Keccak512);
  ctx_skein : context (sph Skein512);
  ctx_luffa : context (sph Luffa512);
  ctx_tiger : context (sph Tiger);
  ctx_ripemd : context (sph Ripemd160);
  ctx_cubehash : context (sph CubeHash512);
  ctx_panama : context (sph Panama);
  ctx_shavite : context (sph Shavite512);
  ctx_simd : context (sph Simd512);
  ctx_echo : context (sph Echo512);
  ctx_hamsi : context (sph Hamsi512);
  ctx_fugue : context (sph Fugue512);
  ctx_shabal : context (sph Shabal512);
  ctx_haval : context (sph Haval256_5);
  ctx_whirlpool : context (sph Whirlpool);
  ctx_lowcube : context (sph CubeHash384);
  ctx_whirlpool1 : context (sph Whirlpool1);
  ctx_tiger2 : context (sph Tiger2)
}.

(** [static unsigned char pblank[1]]. *)
Definition pblank : list Z := [0].

(** The body of [Hash9] up to its [return]: the array [hash[24]] as the
    return statement finds it. *)
Definition Hash9_hash (frame : locals) (m : list Z)
  : M zstate (list (list Z)) :=
  let ctx_blake := ctx_blake frame in
  let ctx_sha := ctx_sha frame in
  let ctx_bmw := ctx_bmw frame in
  let ctx_groestl := ctx_groestl frame in
  let ctx_jh := ctx_jh frame in
  let ctx_keccak := ctx_keccak frame in
  let ctx_skein := ctx_skein frame in
  let ctx_luffa := ctx_luffa frame in
  let ctx_tiger := ctx_tiger frame in
  let ctx_ripemd := ctx_ripemd frame in
  let ctx_cubehash := ctx_cubehash frame in
  let ctx_panama := ctx_panama frame in
  let ctx_shavite := ctx_shavite frame in
  let ctx_simd := ctx_simd frame in
  let ctx_echo := ctx_echo frame in
  let ctx_hamsi := ctx_hamsi frame in
  let ctx_fugue := ctx_fugue frame in
  let ctx_shabal := ctx_shabal frame in
  let ctx_haval := ctx_haval frame in
  let ctx_whirlpool := ctx_whirlpool frame in
  let ctx_lowcube := ctx_lowcube frame in
  let ctx_whirlpool1 := ctx_whirlpool1 frame in
  let ctx_tiger2 := ctx_tiger2 frame in
  let hash0 := uint512_new in
  let hash1 := uint512_new in
  let hash2 := uint512_new in
  let hash3 := uint512_new in
  let hash4 := uint512_new in
  let hash5 := uint512_new in
  let hash6 := uint512_new in
  let hash7 := uint512_new in
  let hash8 := uint512_new in
  let hash9 := uint512_new in
  let hash10 := uint512_new in
  let hash11 := uint512_new in
  let hash12 := uint512_new in
  let hash13 := uint512_new in
  let hash14 := uint512_new in
  let hash15 := uint512_new in
  let hash16 := uint512_new in
  let hash17 := uint512_new in
  let hash18 := uint512_new in
  let hash19 := uint512_new in
  let hash20 := uint512_new in
  let hash21 := uint512_new in
  let hash22 := uint512_new in
  let hash23 := uint512_new in

  ctx_whirlpool1 <- sph_init Whirlpool1 ctx_whirlpool1 ;;
  ctx_whirlpool1 <- sph_ Whirlpool1 ctx_whirlpool1
    (match m with [] => pblank | _ => m end) (length m) ;;
  '(ctx_whirlpool1, hash0) <- sph_close Whirlpool1 ctx_whirlpool1 hash0 ;;

  ctx_bmw <- sph_init Bmw512 ctx_bmw ;;
  ctx_bmw <- sph_ Bmw512 ctx_bmw hash0 64 ;;
  '(ctx_bmw, hash1) <- sph_close Bmw512 ctx_bmw hash1 ;;

  ctx_groestl <- sph_init Groestl512 ctx_groestl ;;
  ctx_groestl <- sph_ Groestl512 ctx_groestl hash1 64 ;;
  '(ctx_groestl, hash2) <- sph_close Groestl512 ctx_groestl hash2 ;;

  ctx_echo <- sph_init Echo512 ctx_echo ;;
  ctx_echo <- sph_ Echo512 ctx_echo hash2 64 ;;
  '(ctx_echo, hash3) <- sph_close Echo512 ctx_echo hash3 ;;

  ctx_hamsi <- sph_init Hamsi512 ctx_hamsi ;;
  ctx_hamsi <- sph_ Hamsi512 ctx_hamsi hash3 64 ;;
  '(ctx_hamsi, hash4) <- sph_close Hamsi512 ctx_hamsi hash4 ;;

  ctx_fugue <- sph_init Fugue512 ctx_fugue ;;
  ctx_fugue <- sph_ Fugue512 ctx_fugue hash4 64 ;;
  '(ctx_fugue, hash5) <- sph_close Fugue512 ctx_fugue hash5 ;;

  ctx_shabal <- sph_init Shabal512 ctx_shabal ;;
  ctx_shabal <- sph_ Shabal512 ctx_shabal hash5 64 ;;
  '(ctx_shabal, hash6) <- sph_close Shabal512 ctx_shabal hash6 ;;

  ctx_jh <- sph_init Jh512 ctx_jh ;;
  ctx_jh <- sph_ Jh512 ctx_jh hash6 64 ;;
  '(ctx_jh, hash7) <- sph_close Jh512 ctx_jh hash7 ;;

  ctx_keccak <- sph_init Keccak512 ctx_keccak ;;
  ctx_keccak <- sph_ Keccak512 ctx_keccak hash7 64 ;;
  '(ctx_keccak, hash8) <- sph_close Keccak512 ctx_keccak hash8 ;;

  ctx_skein <- sph_init Skein512 ctx_skein ;;
  ctx_skein <- sph_ Skein512 ctx_skein hash8 64 ;;
  '(ctx_skein, hash9) <- sph_close Skein512 ctx_skein hash9 ;;

  ctx_luffa <- sph_init Luffa512 ctx_luffa ;;
  ctx_luffa <- sph_ Luffa512 ctx_luffa hash9 64 ;;
  '(ctx_luffa, hash10) <- sph_close Luffa512 ctx_luffa hash10 ;;

  ctx_tiger <- sph_init Tiger ctx_tiger ;;
  ctx_tiger <- sph_ Tiger ctx_tiger hash10 64 ;;
  '(ctx_tiger, hash11) <- sph_close Tiger ctx_tiger hash11 ;;

  ctx_cubehash <- sph_init CubeHash512 ctx_cubehash ;;
  ctx_cubehash <- sph_ CubeHash512 ctx_cubehash hash11 64 ;;
  '(ctx_cubehash, hash12) <- sph_close CubeHash512 ctx_cubehash hash12 ;;

  ctx_panama <- sph_init Panama ctx_panama ;;
  ctx_panama <- sph_ Panama ctx_panama hash12 64 ;;
  '(ctx_panama, hash13) <- sph_close Panama ctx_panama hash13 ;;

  ctx_sha <- sph_init Sha512 ctx_sha ;;
  ctx_sha <- sph_ Sha512 ctx_sha hash13 64 ;;
  '(ctx_sha, hash14) <- sph_close Sha512 ctx_sha hash14 ;;

  ctx_shavite <- sph_init Shavite512 ctx_shavite ;;
  ctx_shavite <- sph_ Shavite512 ctx_shavite hash14 64 ;;
  '(ctx_shavite, hash15) <- sph_close Shavite512 ctx_shavite hash15 ;;

  ctx_simd <- sph_init Simd512 ctx_simd ;;
  ctx_simd <- sph_ Simd512 ctx_simd hash15 64 ;;
  '(ctx_simd, hash16) <- sph_close Simd512 ctx_simd hash16 ;;

  ctx_blake <- sph_init Blake512 ctx_blake ;;
  ctx_blake <- sph_ Blake512 ctx_blake hash16 64 ;;
  '(ctx_blake, hash17) <- sph_close Blake512 ctx_blake hash17 ;;

  ctx_ripemd <- sph_init Ripemd160 ctx_ripemd ;;
  ctx_ripemd <- sph_ Ripemd160 ctx_ripemd hash17 64 ;;
  '(ctx_ripemd, hash18) <- sph_close Ripemd160 ctx_ripemd hash18 ;;

  ctx_haval <- sph_init Haval256_5 ctx_haval ;;
  ctx_haval <- sph_ Haval256_5 ctx_haval hash18 64 ;;
  '(ctx_haval, hash19) <- sph_close Haval256_5 ctx_haval hash19 ;;

  ctx_lowcube <- sph_init CubeHash384 ctx_lowcube ;;
  ctx_lowcube <- sph_ CubeHash384 ctx_lowcube hash19 64 ;;
  '(ctx_lowcube, hash20) <- sph_close CubeHash384 ctx_lowcube hash20 ;;

  ctx_whirlpool1 <- sph_init Whirlpool1 ctx_whirlpool1 ;;
  ctx_whirlpool1 <- sph_ Whirlpool1 ctx_whirlpool1 hash20 64 ;;
  '(ctx_whirlpool1, hash21) <- sph_close Whirlpool1 ctx_whirlpool1 hash21 ;;

  ctx_tiger2 <- sph_init Tiger2 ctx_tiger2 ;;
  ctx_tiger2 <- sph_ Tiger2 ctx_tiger2 hash21 64 ;;
  '(ctx_tiger2, hash22) <- sph_close Tiger2 ctx_tiger2 hash22 ;;

  ctx_whirlpool <- sph_init Whirlpool ctx_whirlpool ;;
  ctx_whirlpool <- sph_ Whirlpool ctx_whirlpool hash22 64 ;;
  '(ctx_whirlpool, hash23) <- sph_close Whirlpool ctx_whirlpool hash23 ;;

  ret [hash0; hash1; hash2; hash3; hash4; hash5; hash6; hash7;
       hash8; hash9; hash10; hash11; hash12; hash13; hash14; hash15;
       hash16; hash17; hash18; hash19; hash20; hash21; hash22; hash23].

(** [return hash[23].trim256();] *)
Definition Hash9 (frame : locals) (m : list Z) : M zstate (list Z) :=
  hash <- Hash9_hash frame m ;;
  ret (trim256 (nth 23 hash [])).

End WithExternals.

(** The steps of this definition, in order. *)
Definition steps : list primitive :=
  [Whirlpool1; Bmw512; Groestl512; Echo512; Hamsi512; Fugue512;
   Shabal512; Jh512; Keccak512; Skein512; Luffa512; Tiger;
   CubeHash512; Panama; Sha512; Shavite512; Simd512; Blake512;
   Ripemd160; Haval256_5; CubeHash384; Whirlpool1; Tiger2; Whirlpool].

End Chain24.

(** * Properties *)

Lemma word32_high_bit (x n : Z) : word32 x -> 32 <= n -> Z.testbit x n = false.
Proof.
  intros Hx Hn. unfold word32 in Hx.
  rewrite <- (Z.mod_small x (2 ^ 32)) by assumption.
  apply Z.mod_pow2_bits_high. lia.
Qed.

Lemma not32_spec (x n : Z) :
  0 <= n -> Z.testbit (not32 x) n = xorb (Z.testbit x n) (n <? 32).
Proof.
  intros Hn. unfold not32. rewrite Z.lxor_spec.
  change 0xFFFFFFFF with (Z.ones 32).
  now rewrite Z.testbit_ones_nonneg by lia.
Qed.

Ltac bitwise n Hn :=
  apply Z.bits_inj'; intros n Hn;
  repeat first
    [ rewrite Z.lxor_spec | rewrite Z.land_spec | rewrite Z.lor_spec
    | rewrite not32_spec by exact Hn ].

Ltac high_bits Hn :=
  repeat match goal with
  | H : word32 ?x |- context [Z.testbit ?x ?n] =>
      rewrite (word32_high_bit x n H) by lia
  end.

Ltac word_bits n Hn :=
  bitwise n Hn;
  destruct (Z.ltb_spec n 32) as [Hlt | Hge];
  [ | high_bits Hn ]; btauto.

Module HavalFacts.
Import Haval.

(** *** The pass functions against the reference paper *)

Lemma F1_paper_eq x6 x5 x4 x3 x2 x1 x0 :
  F1 x6 x5 x4 x3 x2 x1 x0 = F1_paper x6 x5 x4 x3 x2 x1 x0.
Proof. unfold F1, F1_paper. bitwise n Hn. btauto. Qed.

Lemma F2_paper_eq x6 x5 x4 x3 x2 x1 x0 :
  word32 x1 -> word32 x2 ->
  F2 x6 x5 x4 x3 x2 x1 x0 = F2_paper x6 x5 x4 x3 x2 x1 x0.
Proof. intros H1 H2. unfold F2, F2_paper. word_bits n Hn. Qed.

Lemma F3_paper_eq x6 x5 x4 x3 x2 x1 x0 :
  F3 x6 x5 x4 x3 x2 x1 x0 = F3_paper x6 x5 x4 x3 x2 x1 x0.
Proof. unfold F3, F3_paper. bitwise n Hn. btauto. Qed.

Lemma F4_paper_eq x6 x5 x4 x3 x2 x1 x0 :
  word32 x4 -> word32 x5 ->
  F4 x6 x5 x4 x3 x2 x1 x0 = F4_paper x6 x5 x4 x3 x2 x1 x0.
Proof. intros H1 H2. unfold F4, F4_paper. word_bits n Hn. Qed.

Lemma F5_paper_eq x6 x5 x4 x3 x2 x1 x0 :
  word32 x0 ->
  F5 x6 x5 x4 x3 x2 x1 x0 = F5_paper x6 x5 x4 x3 x2 x1 x0.
Proof. intros H1. unfold F5, F5_paper. word_bits n Hn. Qed.

(** *** Known answers

    Digests published for the HAVAL family: the empty message by five
    members, one for each output length, and a short message by
    HAVAL-256/5. *)

Example haval256_5_empty :
  hash_of 256 5 []
  = [0xBE; 0x41; 0x7B; 0xB4; 0xDD; 0x5C; 0xFB; 0x76;
     0xC7; 0x12; 0x6F; 0x4F; 0x8E; 0xEB; 0x15; 0x53;
     0xA4; 0x49; 0x03; 0x93; 0x07; 0xB1; 0xA3; 0xCD;
     0x45; 0x1D; 0xBF; 0xDC; 0x0F; 0xBB; 0xE3; 0x30].
Proof. vm_compute. reflexivity. Qed.

Example haval128_3_empty :
  hash_of 128 3 []
  = [0xC6; 0x8F; 0x39; 0x91; 0x3F; 0x90; 0x1F; 0x3D;
     0xDF; 0x44; 0xC7; 0x07; 0x35; 0x7A; 0x7D; 0x70].
Proof. vm_compute. reflexivity. Qed.

Example haval160_4_empty :
  hash_of 160 4 []
  = [0x1D; 0x33; 0xAA; 0xE1; 0xBE; 0x41; 0x46; 0xDB; 0xAA; 0xCA;
     0x0B; 0x6E; 0x70; 0xD7; 0xA1; 0x1F; 0x10; 0x80; 0x15; 0x25].
Proof. vm_compute. reflexivity. Qed.

Example haval192_5_empty :
  hash_of 192 5 []
  = [0x48; 0x39; 0xD0; 0x62; 0x6F; 0x95; 0x93; 0x5E;
     0x17; 0xEE; 0x2F; 0xC4; 0x50; 0x93; 0x87; 0xBB;
     0xE2; 0xCC; 0x46; 0xCB; 0x38; 0x2F; 0xFE; 0x85].
Proof. vm_compute. reflexivity. Qed.

Example haval224_3_empty :
  hash_of 224 3 []
  = [0xC5; 0xAA; 0xE9; 0xD4; 0x7B; 0xFF; 0xCA; 0xAF; 0x84; 0xA8;
     0xC6; 0xE7; 0xCC; 0xAC; 0xD6; 0x0A; 0x0D; 0xD1; 0x93; 0x2B;
     0xE7; 0xB1; 0xA1; 0x92; 0xB9; 0x21; 0x4B; 0x6D].
Proof. vm_compute. reflexivity. Qed.

(** "The quick brown fox jumps over the lazy dog", by HAVAL-256/5. *)
Example haval256_5_fox :
  hash_of 256 5
    [84; 104; 101; 32; 113; 117; 105; 99; 107; 32; 98; 114; 111; 119;
     110; 32; 102; 111; 120; 32; 106; 117; 109; 112; 115; 32; 111; 118;
     101; 114; 32; 116; 104; 101; 32; 108; 97; 122; 121; 32; 100; 111;
     103]
  = [0xB8; 0x9C; 0x55; 0x1C; 0xDF; 0xE2; 0xE0; 0x6D;
     0xBD; 0x4C; 0xEA; 0x2B; 0xE1; 0xBC; 0x7D; 0x55;
     0x74; 0x16; 0xC5; 0x8E; 0xBB; 0x4D; 0x07; 0xCB;
     0xC9; 0x4E; 0x49; 0xF7; 0x10; 0xC5; 0x5B; 0xE4].
Proof. vm_compute. reflexivity. Qed.

(** A context of static storage on which init was never called does not
    hash as an initialized one: with [olen] zero nothing is written out. *)
Example haval_uninitialized_context_differs :
  snd (sph_haval256_5_close (sph_haval256_5 zero_context [] 0) (repeat 0 32))
  <> haval256_5_digest [].
Proof. vm_compute. discriminate. Qed.

(** *** Field access through the context updates *)

Lemma RSTATE_WSTATE sc s : RSTATE (WSTATE sc s) = s.
Proof. now destruct s. Qed.

Lemma buf_WSTATE sc s : buf (WSTATE sc s) = buf sc.
Proof. now destruct s. Qed.

Lemma olen_WSTATE sc s : olen (WSTATE sc s) = olen sc.
Proof. now destruct s. Qed.

Lemma passes_WSTATE sc s : passes (WSTATE sc s) = passes sc.
Proof. now destruct s. Qed.

Lemma count_WSTATE sc s : count (WSTATE sc s) = count sc.
Proof. now destruct s. Qed.

Lemma RSTATE_set_count sc c : RSTATE (set_count sc c) = RSTATE sc.
Proof. reflexivity. Qed.

Lemma buf_set_count sc c : buf (set_count sc c) = buf sc.
Proof. reflexivity. Qed.

Lemma olen_set_count sc c : olen (set_count sc c) = olen sc.
Proof. reflexivity. Qed.

Lemma passes_set_count sc c : passes (set_count sc c) = passes sc.
Proof. reflexivity. Qed.

Lemma count_set_count sc c : count (set_count sc c) = c.
Proof. reflexivity. Qed.

Lemma RSTATE_set_buf sc b : RSTATE (set_buf sc b) = RSTATE sc.
Proof. reflexivity. Qed.

Lemma buf_set_buf sc b : buf (set_buf sc b) = b.
Proof. reflexivity. Qed.

Lemma olen_set_buf sc b : olen (set_buf sc b) = olen sc.
Proof. reflexivity. Qed.

Lemma passes_set_buf sc b : passes (set_buf sc b) = passes sc.
Proof. reflexivity. Qed.

Lemma count_set_buf sc b : count (set_buf sc b) = count sc.
Proof. reflexivity. Qed.

Create Rewrite HintDb haval_ctx.
#[local] Hint Rewrite RSTATE_WSTATE buf_WSTATE olen_WSTATE passes_WSTATE
  count_WSTATE RSTATE_set_count buf_set_count olen_set_count passes_set_count
  count_set_count RSTATE_set_buf buf_set_buf olen_set_buf passes_set_buf
  count_set_buf : haval_ctx.

(** *** Buffers that agree below a fill level *)

Lemma agree_le n m b b' : (m <= n)%nat -> agree n b b' -> agree m b b'.
Proof. intros Hle H i Hi. apply H. lia. Qed.

Lemma agree_put_in n k v b b' :
  agree n b b' -> agree n (buf_put b k v) (buf_put b' k v).
Proof.
  intros H i Hi. unfold buf_put. destruct (Nat.eqb i k); auto.
Qed.

Lemma agree_put_ext k v b b' :
  agree k b b' -> agree (S k) (buf_put b k v) (buf_put b' k v).
Proof.
  intros H i Hi. unfold buf_put.
  destruct (Nat.eqb_spec i k); [reflexivity | apply H; lia].
Qed.

Lemma agree_fill_in n off len v b b' :
  agree n b b' -> agree n (buf_fill b off len v) (buf_fill b' off len v).
Proof.
  intros H i Hi. unfold buf_fill.
  destruct (Nat.leb off i && Nat.ltb i (off + len)); auto.
Qed.

Lemma agree_fill_ext off len v b b' :
  agree off b b' ->
  agree (off + len) (buf_fill b off len v) (buf_fill b' off len v).
Proof.
  intros H i Hi. unfold buf_fill.
  destruct (Nat.leb_spec off i); cbn [andb].
  - destruct (Nat.ltb_spec i (off + len)); [reflexivity | lia].
  - apply H. lia.
Qed.

Lemma agree_enc64_in n off val b b' :
  agree n b b' ->
  agree n (sph_enc64le_aligned b off val) (sph_enc64le_aligned b' off val).
Proof.
  intros H. unfold sph_enc64le_aligned. cbn [seq fold_left].
  repeat apply agree_put_in. exact H.
Qed.

Lemma agree_enc64_ext off val b b' :
  agree off b b' ->
  agree (off + 8) (sph_enc64le_aligned b off val)
                  (sph_enc64le_aligned b' off val).
Proof.
  intros H i Hi. unfold sph_enc64le_aligned. cbn [seq fold_left].
  unfold buf_put.
  repeat match goal with
  | |- context [Nat.eqb i ?k] =>
      destruct (Nat.eqb_spec i k); [reflexivity | ]
  end.
  apply H. lia.
Qed.

Lemma IN_PREPARE_agree b b' : agree 128 b b' -> IN_PREPARE b = IN_PREPARE b'.
Proof.
  intros H. unfold IN_PREPARE. apply map_ext_in. intros i Hi.
  apply in_seq in Hi. unfold sph_dec32le_aligned.
  rewrite !(H _) by lia. reflexivity.
Qed.

(** *** Contexts that no sequence of calls tells apart *)

Lemma fill_level_lt c : (Z.to_nat (Z.land c 127) < 128)%nat.
Proof.
  change 127 with (Z.ones 7). rewrite Z.land_ones by lia.
  pose proof (Z.mod_pos_bound c (2 ^ 7)). lia.
Qed.

Lemma fill_level_next c :
  (Z.to_nat (Z.land (SPH_T64 (c + 1)) 127) <= S (Z.to_nat (Z.land c 127)))%nat.
Proof.
  unfold SPH_T64. rewrite <- Z.land_assoc.
  change (Z.land 0xFFFFFFFFFFFFFFFF 127) with (Z.ones 7).
  change 127 with (Z.ones 7). rewrite !Z.land_ones by lia.
  rewrite <- Z.add_mod_idemp_l by lia.
  pose proof (Z.mod_pos_bound c (2 ^ 7)).
  pose proof (Z.mod_le (c mod 2 ^ 7 + 1) (2 ^ 7)).
  pose proof (Z.mod_pos_bound (c mod 2 ^ 7 + 1) (2 ^ 7)). lia.
Qed.

Lemma haval_init_equiv a b o p : equiv (haval_init a o p) (haval_init b o p).
Proof. split; try reflexivity. intros i Hi. cbn in Hi. lia. Qed.

Lemma haval_byte_equiv P a b x :
  equiv a b -> equiv (haval_byte P a x) (haval_byte P b x).
Proof.
  intros [Hs Ho Hp Hc Hb]. unfold haval_byte. rewrite <- Hc.
  fold (fill_level a). set (cur := fill_level a) in *.
  assert (Hput : agree (S cur) (buf_put (buf a) cur x) (buf_put (buf b) cur x))
    by now apply agree_put_ext.
  pose proof (fill_level_next (count a)) as Hnext.
  fold (fill_level a) in Hnext. fold cur in Hnext.
  destruct (Nat.eqb_spec (S cur) 128) as [Hfull | Hpart].
  - assert (Hin : IN_PREPARE (buf_put (buf a) cur x)
                  = IN_PREPARE (buf_put (buf b) cur x))
      by (apply IN_PREPARE_agree; now rewrite <- Hfull).
    split; unfold fill_level; autorewrite with haval_ctx; try congruence.
    eapply agree_le; [exact Hnext | exact Hput].
  - split; unfold fill_level; autorewrite with haval_ctx; try congruence.
    eapply agree_le; [exact Hnext | exact Hput].
Qed.

Lemma haval_equiv P a b data len :
  equiv a b -> equiv (haval P a data len) (haval P b data len).
Proof.
  unfold haval. generalize (firstn len data) as l. intros l. revert a b.
  induction l as [ | x l IH]; intros a b H; cbn [fold_left].
  - exact H.
  - apply IH. now apply haval_byte_equiv.
Qed.

Lemma absorbed_equiv xxx y a b history :
  equiv a b -> equiv (absorbed xxx y a history) (absorbed xxx y b history).
Proof.
  unfold absorbed. revert a b.
  induction history as [ | h l IH]; intros a b H; cbn [fold_left].
  - exact H.
  - apply IH. unfold sph_haval. now apply haval_equiv.
Qed.

Lemma haval_out_ext a b dst :
  RSTATE a = RSTATE b -> olen a = olen b -> haval_out a dst = haval_out b dst.
Proof. intros Hs Ho. unfold haval_out. now rewrite Hs, Ho. Qed.

Lemma haval_trailer_agree P a b ba bb cur :
  olen a = olen b -> count a = count b -> (cur <= 118)%nat ->
  agree cur ba bb ->
  agree 128 (haval_trailer P a ba cur) (haval_trailer P b bb cur).
Proof.
  intros Ho Hc Hcur H. unfold haval_trailer. rewrite Ho, Hc.
  change 128%nat with (120 + 8)%nat. apply agree_enc64_ext.
  do 2 apply agree_put_ext.
  replace 118%nat with (cur + (118 - cur))%nat at 1 by lia.
  now apply agree_fill_ext.
Qed.

(** The block or blocks that close compresses are made of the pending
    bytes and the padding alone. *)
Lemma haval_padded_equiv P a b ub n :
  equiv a b ->
  RSTATE (haval_padded P a ub n) = RSTATE (haval_padded P b ub n).
Proof.
  intros [Hs Ho Hp Hc Hb]. unfold haval_padded. rewrite <- Hc, <- Hs.
  fold (fill_level a). set (cur := fill_level a) in *.
  set (pad := Z.land _ 255).
  assert (Hput : agree (S cur) (buf_put (buf a) cur pad)
                               (buf_put (buf b) cur pad))
    by now apply agree_put_ext.
  pose proof (fill_level_lt (count a)) as Hlt.
  fold (fill_level a) in Hlt. fold cur in Hlt.
  destruct (Nat.ltb_spec 118 (S cur)) as [Htwo | Hone].
  - assert (H1 : agree 128
               (buf_fill (buf_put (buf a) cur pad) (S cur) (128 - S cur) 0)
               (buf_fill (buf_put (buf b) cur pad) (S cur) (128 - S cur) 0)).
    { replace 128%nat with (S cur + (128 - S cur))%nat at 1 by lia.
      now apply agree_fill_ext. }
    rewrite (IN_PREPARE_agree _ _ H1).
    rewrite (IN_PREPARE_agree _ _
               (haval_trailer_agree P a b _ _ 0 Ho Hc ltac:(lia)
                  (agree_le _ 0 _ _ ltac:(lia) H1))).
    now autorewrite with haval_ctx.
  - rewrite (IN_PREPARE_agree _ _
               (haval_trailer_agree P a b _ _ (S cur) Ho Hc Hone Hput)).
    now autorewrite with haval_ctx.
Qed.

Lemma params_haval_padded P sc ub n :
  olen (haval_padded P sc ub n) = olen sc
  /\ passes (haval_padded P sc ub n) = passes sc.
Proof.
  unfold haval_padded.
  destruct (Nat.ltb 118 (S (Z.to_nat (Z.land (count sc) 127))));
    now autorewrite with haval_ctx.
Qed.

Lemma haval_close_equiv P a b ub n dst :
  equiv a b ->
  snd (haval_close P a ub n dst) = snd (haval_close P b ub n dst)
  /\ equiv (fst (haval_close P a ub n dst)) (fst (haval_close P b ub n dst)).
Proof.
  intros H. pose proof (haval_padded_equiv P a b ub n H) as Hs.
  destruct H as [_ Ho Hp _ _].
  destruct (params_haval_padded P a ub n) as [Hoa Hpa].
  destruct (params_haval_padded P b ub n) as [Hob Hpb].
  unfold haval_close. cbn [fst snd]. split.
  - apply haval_out_ext; congruence.
  - rewrite Hoa, Hpa, Hob, Hpb, Ho, Hp. apply haval_init_equiv.
Qed.

Lemma haval_init_idem sc o p :
  haval_init (haval_init sc o p) o p = haval_init sc o p.
Proof. reflexivity. Qed.

Lemma haval_init_fields a b o p :
  (RSTATE (haval_init a o p), olen (haval_init a o p),
   passes (haval_init a o p), count (haval_init a o p))
  = (RSTATE (haval_init b o p), olen (haval_init b o p),
     passes (haval_init b o p), count (haval_init b o p)).
Proof. reflexivity. Qed.

(** The counting update is the update. *)
Lemma haval_counting_fst P sc data len :
  fst (haval_counting P sc data len) = haval P sc data len.
Proof.
  unfold haval_counting, haval.
  change sc with (fst (sc, 0%nat)) at 2.
  generalize (sc, 0%nat) as acc. generalize (firstn len data) as l.
  induction l as [ | x l IH]; intros acc; cbn [fold_left].
  - reflexivity.
  - now rewrite IH.
Qed.

(** *** What the update keeps *)

Lemma olen_haval_byte P sc x : olen (haval_byte P sc x) = olen sc.
Proof.
  unfold haval_byte. destruct (Nat.eqb _ 128); now autorewrite with haval_ctx.
Qed.

Lemma passes_haval_byte P sc x : passes (haval_byte P sc x) = passes sc.
Proof.
  unfold haval_byte. destruct (Nat.eqb _ 128); now autorewrite with haval_ctx.
Qed.

Lemma params_haval P sc data len :
  olen (haval P sc data len) = olen sc
  /\ passes (haval P sc data len) = passes sc.
Proof.
  unfold haval. generalize (firstn len data) as l. intros l. revert sc.
  induction l as [ | x l IH]; intros sc; cbn [fold_left]; [now split | ].
  destruct (IH (haval_byte P sc x)) as [Ho Hp].
  now rewrite Ho, Hp, olen_haval_byte, passes_haval_byte.
Qed.

Lemma params_absorbed xxx y cc history :
  olen (absorbed xxx y cc history) = olen cc
  /\ passes (absorbed xxx y cc history) = passes cc.
Proof.
  unfold absorbed. revert cc.
  induction history as [ | h l IH]; intros cc; cbn [fold_left]; [now split | ].
  destruct (IH (sph_haval xxx y cc (fst h) (snd h))) as [Ho Hp].
  destruct (params_haval y cc (fst h) (snd h)) as [Ho' Hp'].
  rewrite Ho, Hp. unfold sph_haval. now split.
Qed.

(** After close the context is the one [haval_init] makes, with the
    parameters it had. *)
Lemma haval_close_reinit P sc ub n dst :
  fst (haval_close P sc ub n dst)
  = haval_init (haval_padded P sc ub n) (olen sc) (passes sc).
Proof.
  unfold haval_close. cbn [fst].
  destruct (params_haval_padded P sc ub n) as [Ho Hp]. now rewrite Ho, Hp.
Qed.

(** *** The digest of HAVAL-256 in the output buffer *)

Lemma out8_length s : length (out8 s) = 32%nat.
Proof. now destruct s. Qed.

Lemma haval_out_256 sc dst :
  olen sc = 8 -> (32 <= length dst)%nat ->
  haval_out sc dst = out8 (RSTATE sc) ++ skipn 32 dst.
Proof.
  intros Ho Hlen. unfold haval_out. rewrite Ho.
  do 32 (destruct dst as [ | ? dst]; [cbn in Hlen; lia | ]).
  reflexivity.
Qed.

Lemma haval_close_256 P sc ub n dst :
  olen sc = 8 -> (32 <= length dst)%nat ->
  snd (haval_close P sc ub n dst)
  = out8 (RSTATE (haval_padded P sc ub n)) ++ skipn 32 dst.
Proof.
  intros Ho Hlen. unfold haval_close. cbn [snd].
  apply haval_out_256; [ | exact Hlen].
  now rewrite (proj1 (params_haval_padded P sc ub n)).
Qed.

Lemma firstn_out8 s l : firstn 32 (out8 s ++ l) = out8 s.
Proof.
  rewrite firstn_app, out8_length, Nat.sub_diag.
  rewrite firstn_all2 by (rewrite out8_length; lia).
  apply app_nil_r.
Qed.

Lemma olen_updated_256_5 cc data len :
  olen (sph_haval256_5 (sph_haval256_5_init cc) data len) = 8.
Proof. apply (params_haval 5 (haval_init cc 8 5) data len). Qed.

Lemma haval256_5_digest_length m : length (haval256_5_digest m) = 32%nat.
Proof.
  unfold haval256_5_digest, sph_haval256_5_close, sph_haval_close.
  rewrite haval_close_256.
  - now rewrite firstn_out8, out8_length.
  - apply olen_updated_256_5.
  - now rewrite repeat_length.
Qed.

Lemma haval256_5_hash_ok cc data len dst :
  (32 <= length dst)%nat ->
  snd (sph_haval256_5_close (sph_haval256_5 (sph_haval256_5_init cc) data len)
         dst)
  = haval256_5_digest (firstn len data) ++ skipn 32 dst.
Proof.
  intros Hlen.
  set (sc := sph_haval256_5 (sph_haval256_5_init cc) data len).
  set (sc0 := sph_haval256_5 (sph_haval256_5_init zero_context) data len).
  assert (Heq : equiv sc sc0) by apply haval_equiv, haval_init_equiv.
  unfold haval256_5_digest.
  replace (sph_haval256_5 (sph_haval256_5_init zero_context)
             (firstn len data) (length (firstn len data))) with sc0
    by (unfold sc0, sph_haval256_5, sph_haval, haval;
        now rewrite firstn_all).
  unfold sph_haval256_5_close, sph_haval_close.
  rewrite !haval_close_256;
    try apply olen_updated_256_5; try (now rewrite repeat_length);
    try assumption.
  now rewrite firstn_out8, (haval_padded_equiv 5 sc sc0 0 0 Heq).
Qed.

End HavalFacts.

(** ** The three calls of a chain step *)

Section StepFacts.
Context {E : Externals} {G : Type}.

Lemma size_le_64 (p : primitive) : (size (sph p) <= 64)%nat.
Proof. rewrite sph_size. destruct p; vm_compute; lia. Qed.

Lemma mem_write_0 (dst d : list Z) :
  (length d <= length dst)%nat ->
  mem_write dst 0 d = d ++ skipn (length d) dst.
Proof.
  intros H. unfold mem_write. cbn [Nat.add firstn app].
  destruct (Nat.leb_spec (length d) (length dst)); [reflexivity | lia].
Qed.

Lemma wide_digest (p : primitive) (input : list Z) :
  wide (digest (sph p) input)
  = digest (sph p) input ++ skipn (size (sph p)) uint512_new.
Proof.
  unfold wide. rewrite mem_write_0.
  - now rewrite digest_length.
  - rewrite digest_length, uint512_new_length. apply size_le_64.
Qed.

Lemma wide_length (d : list Z) : length (wide d) = 64%nat.
Proof.
  unfold wide, mem_write. cbn [Nat.add firstn app].
  destruct (Nat.leb_spec (length d) (length uint512_new)) as [H | H].
  - rewrite length_app, length_skipn. pose proof uint512_new_length. lia.
  - apply uint512_new_length.
Qed.

Lemma firstn_size_wide (p : primitive) (input : list Z) :
  firstn (size (sph p)) (wide (digest (sph p) input)) = digest (sph p) input.
Proof.
  rewrite wide_digest, firstn_app, digest_length, Nat.sub_diag.
  rewrite firstn_all2 by (rewrite digest_length; lia).
  cbn [firstn]. apply app_nil_r.
Qed.

(** Init, update and close on any context, closing into a newly constructed
    buffer: the buffer becomes [wide] of the reference digest, and the three
    calls are recorded. *)
Lemma step_run {B} (p : primitive) (cc : context (sph p))
    (data : list Z) (len : nat) (k : context (sph p) * list Z -> M G B)
    (w : process G) :
  (cc1 <- sph_init p cc ;;
   cc2 <- sph_ p cc1 data len ;;
   r <- sph_close p cc2 uint512_new ;;
   k r) w
  = let d := digest (sph p) (firstn len data) in
    k (fst (close (sph p) (update (sph p) (init (sph p) cc) data len)
              uint512_new), wide d)
      (mk_process (zs w)
         (calls w ++ [Init p; Update p (firstn len data); Close p d])).
Proof.
  unfold bind, sph_init, sph_, sph_close, log. cbn [zs calls].
  set (r := close (sph p) _ uint512_new).
  assert (Hr : snd r = wide (digest (sph p) (firstn len data))).
  { subst r. rewrite hash_ok, wide_digest; [reflexivity | ].
    rewrite uint512_new_length. apply size_le_64. }
  clearbody r. destruct r as [cc' out]. cbn [fst snd] in *. subst out.
  now rewrite firstn_size_wide, <- !app_assoc.
Qed.

End StepFacts.

Module Chain5Facts.
Import Chain5.
Section WithExternals.
Context {E : Externals}.

Lemma message_bytes5 (m : list Z) :
  firstn (length m) (match m with [] => pblank | _ => m end) = m.
Proof. destruct m; [reflexivity | apply firstn_all]. Qed.

Lemma Hash9_hash_run5 (frame : locals) (m : list Z) (w : process zstate) :
  Hash9_hash frame m w
  = (chain_buffers steps m,
     mk_process (zs w) (calls w ++ chain_calls steps m)).
Proof.
  unfold Hash9_hash.
  do 5 (rewrite step_run; cbv zeta; cbn [zs calls]).
  unfold ret, steps. cbn [chain_buffers chain_calls].
  rewrite message_bytes5, <- !app_assoc. reflexivity.
Qed.

End WithExternals.
End Chain5Facts.

Module Chain24Facts.
Import Chain24.
Section WithExternals.
Context {E : Externals}.

Lemma message_bytes24 (m : list Z) :
  firstn (length m) (match m with [] => pblank | _ => m end) = m.
Proof. destruct m; [reflexivity | apply firstn_all]. Qed.

Lemma Hash9_hash_run24 (frame : locals) (m : list Z) (w : process zstate) :
  Hash9_hash frame m w
  = (chain_buffers steps m,
     mk_process (zs w) (calls w ++ chain_calls steps m)).
Proof.
  unfold Hash9_hash.
  do 24 (rewrite step_run; cbv zeta; cbn [zs calls]).
  unfold ret, steps. cbn [chain_buffers chain_calls].
  rewrite message_bytes24, <- !app_assoc. reflexivity.
Qed.

End WithExternals.
End Chain24Facts.

(** ** HAVAL-256/5 as a primitive of the chain *)

Definition haval256_5_sph : sph_primitive :=
  {| context := Haval.sph_haval_context;
     size := 32;
     init := Haval.sph_haval256_5_init;
     update := Haval.sph_haval256_5;
     close := Haval.sph_haval256_5_close;
     digest := Haval.haval256_5_digest;
     digest_length := HavalFacts.haval256_5_digest_length;
     hash_ok := HavalFacts.haval256_5_hash_ok |}.

(** ** An instance of the externals

    HAVAL-256/5 is the code above.  For each primitive the sources do not
    contain, a stand-in of the right output size takes its place: it keeps
    the bytes absorbed and returns the first of them, padded with zeros.
    The instance shows that the contract asked of the externals can be met
    and gives the chain inputs to run on; nothing is claimed of the other
    primitives through it. *)

Module Standin.

Definition short_digest (n : nat) (m : list Z) : list Z :=
  firstn n (m ++ repeat 0 n).

Lemma short_digest_length n m : length (short_digest n m) = n.
Proof.
  unfold short_digest. rewrite length_firstn, length_app, repeat_length. lia.
Qed.

Lemma short_hash_ok n (cc : list Z) data len dst :
  (n <= length dst)%nat ->
  snd (@nil Z, mem_write dst 0 (short_digest n ([] ++ firstn len data)))
  = short_digest n (firstn len data) ++ skipn n dst.
Proof.
  intros H. cbn [snd app]. unfold mem_write. cbn [Nat.add firstn app].
  rewrite short_digest_length.
  destruct (Nat.leb_spec n (length dst)); [reflexivity | lia].
Qed.

Definition short (n : nat) : sph_primitive :=
  {| context := list Z;
     size := n;
     init := fun _ => [];
     update := fun cc data len => cc ++ firstn len data;
     close := fun cc dst => ([], mem_write dst 0 (short_digest n cc));
     digest := short_digest n;
     digest_length := short_digest_length n;
     hash_ok := short_hash_ok n |}.

Definition primitives (p : primitive) : sph_primitive :=
  match p with
  | Haval256_5 => haval256_5_sph
  | _ => short (SPH_SIZE p / 8)
  end.

Lemma primitives_size p : size (primitives p) = (SPH_SIZE p / 8)%nat.
Proof. now destruct p. Qed.

Definition externals : Externals :=
  {| sph := primitives;
     sph_size := primitives_size;
     uint512_new := repeat 0 64;
     uint512_new_length := repeat_length 0 64 |}.

Lemma externals_inhabited : inhabited Externals.
Proof. exact (inhabits externals). Qed.

(** A process at its start: every global context zero, no call made. *)
Definition start5 : process (@Chain5.zstate externals) :=
  mk_process
    (fun v =>
       match v return context (primitives (Chain5.zvar_primitive v)) with
       | Chain5.z_keccak => []
       | _ => []
       end) [].

Definition start24 : process (@Chain24.zstate externals) :=
  mk_process
    (fun v =>
       match v return context (primitives (Chain24.zvar_primitive v)) with
       | Chain24.z_haval => Haval.zero_context
       | _ => []
       end) [].

Definition frame5 : @Chain5.locals externals :=
  @Chain5.Build_locals externals [] [] [] [].

Definition frame24 : @Chain24.locals externals :=
  @Chain24.Build_locals externals [] [] [] [] [] [] [] [] [] [] [] [] [] []
    [] [] [] [] Haval.zero_context [] [] [] [].

(** The chain runs on the instance: fifteen calls for five steps,
    seventy-two for twenty-four, and a digest of 32 bytes. *)
Example Hash9_runs_on_the_instance :
  length (calls (snd (@Chain5.Hash9 externals frame5 [1; 2; 3] start5)))
  = 15%nat
  /\ length (calls (snd (@Chain24.Hash9 externals frame24 [1; 2; 3] start24)))
     = 72%nat
  /\ length (fst (@Chain24.Hash9 externals frame24 [1; 2; 3] start24))
     = 32%nat.
Proof. vm_compute. auto. Qed.

End Standin.

(** ** The chain against the code *)

Section ChainFacts.
Context {E : Externals}.

Lemma wide_full (p : primitive) (x : list Z) :
  SPH_SIZE p = 512%nat -> wide (digest (sph p) x) = digest (sph p) x.
Proof.
  intros H. rewrite wide_digest, sph_size, H.
  rewrite skipn_all2 by (rewrite uint512_new_length; vm_compute; lia).
  apply app_nil_r.
Qed.

Lemma firstn_64_wide (d : list Z) : firstn 64 (wide d) = wide d.
Proof. apply firstn_all2. now rewrite wide_length. Qed.

Lemma removelast_cons2 {A} (a b : A) (l : list A) :
  removelast (a :: b :: l) = a :: removelast (b :: l).
Proof. reflexivity. Qed.

(** Every update after the first absorbs the buffer the step before it
    closed into. *)
Lemma updates_chain_calls (steps : list primitive) (m : list Z) :
  tl (updates (chain_calls steps m))
  = map wide (removelast (closes (chain_calls steps m))).
Proof.
  revert m. induction steps as [ | p rest IH]; intros m; [reflexivity | ].
  cbn [chain_calls updates closes flat_map app tl].
  fold (updates (chain_calls rest (firstn 64 (wide (digest (sph p) m))))).
  fold (closes (chain_calls rest (firstn 64 (wide (digest (sph p) m))))).
  specialize (IH (firstn 64 (wide (digest (sph p) m)))).
  destruct rest as [ | q rest]; [reflexivity | ].
  cbn [chain_calls updates closes flat_map app tl] in IH |- *.
  rewrite removelast_cons2. cbn [map]. rewrite <- IH, firstn_64_wide.
  reflexivity.
Qed.

Lemma updates_length (steps : list primitive) (m : list Z) :
  Forall (fun d => length d = 64%nat) (tl (updates (chain_calls steps m))).
Proof.
  rewrite updates_chain_calls. apply Forall_forall. intros d Hd.
  apply in_map_iff in Hd. destruct Hd as [x [<- _]]. apply wide_length.
Qed.

(** What the step after HAVAL-256/5 absorbs, for every instance of the
    externals: 64 bytes, of which the digest is the first 32. *)
Lemma step21_lengths (m : list Z) :
  let tr := chain_calls Chain24.steps m in
  length (nth 20 (updates tr) []) = 64%nat
  /\ length (nth 19 (closes tr) []) = 32%nat
  /\ firstn 32 (nth 20 (updates tr) []) = nth 19 (closes tr) [].
Proof.
  cbv zeta. unfold Chain24.steps.
  cbn [chain_calls updates closes flat_map app nth].
  rewrite firstn_64_wide, wide_length, digest_length, sph_size.
  repeat split.
  rewrite wide_digest, firstn_app, digest_length, !sph_size.
  change (SPH_SIZE Haval256_5 / 8)%nat with 32%nat.
  rewrite Nat.sub_diag, firstn_all2 by (rewrite digest_length, sph_size; cbn; lia).
  apply app_nil_r.
Qed.

Lemma Hash9_run5 (frame : Chain5.locals) (m : list Z)
    (w : process Chain5.zstate) :
  Chain5.Hash9 frame m w
  = (computeChainHash Chain5.steps m,
     mk_process (zs w) (calls w ++ chain_calls Chain5.steps m)).
Proof.
  unfold Chain5.Hash9, bind. rewrite Chain5Facts.Hash9_hash_run5.
  reflexivity.
Qed.

Lemma Hash9_run24 (frame : Chain24.locals) (m : list Z)
    (w : process Chain24.zstate) :
  Chain24.Hash9 frame m w
  = (computeChainHash Chain24.steps m,
     mk_process (zs w) (calls w ++ chain_calls Chain24.steps m)).
Proof.
  unfold Chain24.Hash9, bind. rewrite Chain24Facts.Hash9_hash_run24.
  reflexivity.
Qed.

(** What [fillz] leaves in each global context. *)
Lemma fillz_inits5 (w : process Chain5.zstate) (v : Chain5.zvar) :
  zs (snd (Chain5.fillz w)) v = init (sph _) (zs w v).
Proof. destruct v; reflexivity. Qed.

Lemma fillz_inits24 (w : process Chain24.zstate) (v : Chain24.zvar) :
  v <> Chain24.z_tiger2 ->
  zs (snd (Chain24.fillz w)) v = init (sph _) (zs w v).
Proof. intros Hv. destruct v; try reflexivity. congruence. Qed.

(** Cache equivalence where [fillz] reaches the snapshot: the copy of the
    snapshot and a context initialized in place give the same output. *)
Lemma cache_equivalence5 (w : process Chain5.zstate) (v : Chain5.zvar)
    (cc : context (sph (Chain5.zvar_primitive v)))
    (data : list Z) (len : nat) (dst : list Z) :
  let P := sph (Chain5.zvar_primitive v) in
  (size P <= length dst)%nat ->
  snd (close P (update P (fst (Chain5.zcopy v (snd (Chain5.fillz w))))
                  data len) dst)
  = snd (close P (update P (init P cc) data len) dst).
Proof.
  intros P Hlen. unfold Chain5.zcopy, gcopy. cbn [fst].
  rewrite fillz_inits5. subst P. now rewrite !hash_ok.
Qed.

Lemma cache_equivalence24 (w : process Chain24.zstate) (v : Chain24.zvar)
    (cc : context (sph (Chain24.zvar_primitive v)))
    (data : list Z) (len : nat) (dst : list Z) :
  let P := sph (Chain24.zvar_primitive v) in
  v <> Chain24.z_tiger2 ->
  (size P <= length dst)%nat ->
  snd (close P (update P (fst (Chain24.zcopy v (snd (Chain24.fillz w))))
                  data len) dst)
  = snd (close P (update P (init P cc) data len) dst).
Proof.
  intros P Hv Hlen. unfold Chain24.zcopy, gcopy. cbn [fst].
  rewrite fillz_inits24 by exact Hv. subst P. now rewrite !hash_ok.
Qed.

End ChainFacts.

(** * The claims *)

Section ChainClaims.
Context {E : Externals}.

(** C1.  Determinism: for every message and for each of the two definitions
    of [Hash9], any two evaluations return the same digest, whatever the
    stack held where the contexts are declared, whatever the global contexts
    hold, and whatever calls the process made before. *)
Theorem Hash9_deterministic (m : list Z) :
  (forall (frame frame' : Chain5.locals) (w w' : process Chain5.zstate),
     fst (Chain5.Hash9 frame m w) = fst (Chain5.Hash9 frame' m w'))
  /\ (forall (frame frame' : Chain24.locals) (w w' : process Chain24.zstate),
     fst (Chain24.Hash9 frame m w) = fst (Chain24.Hash9 frame' m w')).
Proof.
  split; intros frame frame' w w'.
  - now rewrite !Hash9_run5.
  - now rewrite !Hash9_run24.
Qed.

(** C2.  The five-step definition is the chain Panama, Whirlpool,
    Keccak-512, Panama, CubeHash-512, five steps over four primitives; the
    twenty-four-step definition is the chain of the listed twenty-four
    steps, with Whirlpool-1 at the first position, followed by BMW-512, and
    at the twenty-second, followed by Tiger2.  Each definition returns what
    the chain of the design document returns and makes exactly its calls,
    in its order. *)
Theorem Hash9_is_the_chain (m : list Z) :
  let five := [Panama; Whirlpool; Keccak512; Panama; CubeHash512] in
  let twenty_four :=
    [Whirlpool1; Bmw512; Groestl512; Echo512; Hamsi512; Fugue512;
     Shabal512; Jh512; Keccak512; Skein512; Luffa512; Tiger;
     CubeHash512; Panama; Sha512; Shavite512; Simd512; Blake512;
     Ripemd160; Haval256_5; CubeHash384; Whirlpool1; Tiger2; Whirlpool] in
  (forall (frame : Chain5.locals) (w : process Chain5.zstate),
     fst (Chain5.Hash9 frame m w) = computeChainHash five m
     /\ calls (snd (Chain5.Hash9 frame m w)) = calls w ++ chain_calls five m)
  /\ length five = 5%nat
  /\ length (nodup primitive_eq_dec five) = 4%nat
  /\ (forall (frame : Chain24.locals) (w : process Chain24.zstate),
     fst (Chain24.Hash9 frame m w) = computeChainHash twenty_four m
     /\ calls (snd (Chain24.Hash9 frame m w))
        = calls w ++ chain_calls twenty_four m)
  /\ length twenty_four = 24%nat
  /\ (nth_error twenty_four 0, nth_error twenty_four 1)
     = (Some Whirlpool1, Some Bmw512)
  /\ (nth_error twenty_four 21, nth_error twenty_four 22)
     = (Some Whirlpool1, Some Tiger2).
Proof.
  cbv zeta. repeat split; intros;
    try (rewrite Hash9_run5; reflexivity);
    try (rewrite Hash9_run24; reflexivity).
Qed.

(** C3.  In both definitions the value returned is [trim256] of the last
    element of [hash]: the first 32 bytes of that 64-byte buffer, which the
    last step's digest fills whole. *)
Theorem Hash9_returns_low_half (m : list Z) :
  (forall (frame : Chain5.locals) (w : process Chain5.zstate),
     let hash := fst (Chain5.Hash9_hash frame m w) in
     fst (Chain5.Hash9 frame m w) = firstn 32 (nth 4 hash [])
     /\ length (nth 4 hash []) = 64%nat
     /\ length (fst (Chain5.Hash9 frame m w)) = 32%nat
     /\ nth 4 hash [] = digest (sph CubeHash512) (firstn 64 (nth 3 hash [])))
  /\ (forall (frame : Chain24.locals) (w : process Chain24.zstate),
     let hash := fst (Chain24.Hash9_hash frame m w) in
     fst (Chain24.Hash9 frame m w) = firstn 32 (nth 23 hash [])
     /\ length (nth 23 hash []) = 64%nat
     /\ length (fst (Chain24.Hash9 frame m w)) = 32%nat
     /\ nth 23 hash [] = digest (sph Whirlpool) (firstn 64 (nth 22 hash []))).
Proof.
  split; intros frame w hash; subst hash.
  - rewrite Hash9_run5, Chain5Facts.Hash9_hash_run5. cbn [fst].
    unfold computeChainHash, trim256, Chain5.steps.
    cbn [chain_buffers last nth].
    repeat split.
    + apply wide_length.
    + rewrite length_firstn, wide_length. reflexivity.
    + now apply wide_full.
  - rewrite Hash9_run24, Chain24Facts.Hash9_hash_run24. cbn [fst].
    unfold computeChainHash, trim256, Chain24.steps.
    cbn [chain_buffers last nth].
    repeat split.
    + apply wide_length.
    + rewrite length_firstn, wide_length. reflexivity.
    + now apply wide_full.
Qed.

(** C4, as amended.  For every step after the first, in either definition,
    the update absorbs exactly the 64 bytes of the buffer the step before
    closed into: the digest that step wrote, followed by the bytes of the
    newly constructed [uint512] that the digest did not reach.  A digest of
    512 bits fills the buffer, and is then all that is absorbed. *)
Theorem step_absorbs_previous_buffer (m : list Z) :
  (forall (frame : Chain5.locals) (w : process Chain5.zstate),
     exists tr,
       calls (snd (Chain5.Hash9 frame m w)) = calls w ++ tr
       /\ tl (updates tr) = map wide (removelast (closes tr))
       /\ Forall (fun d => length d = 64%nat) (tl (updates tr)))
  /\ (forall (frame : Chain24.locals) (w : process Chain24.zstate),
     exists tr,
       calls (snd (Chain24.Hash9 frame m w)) = calls w ++ tr
       /\ tl (updates tr) = map wide (removelast (closes tr))
       /\ Forall (fun d => length d = 64%nat) (tl (updates tr)))
  /\ (forall (p : primitive) (x : list Z),
     wide (digest (sph p) x)
     = digest (sph p) x ++ skipn (SPH_SIZE p / 8) uint512_new)
  /\ (forall (p : primitive) (x : list Z),
     SPH_SIZE p = 512%nat -> wide (digest (sph p) x) = digest (sph p) x).
Proof.
  repeat split.
  - intros frame w. exists (chain_calls Chain5.steps m).
    rewrite Hash9_run5. cbn [snd calls].
    auto using updates_chain_calls, updates_length.
  - intros frame w. exists (chain_calls Chain24.steps m).
    rewrite Hash9_run24. cbn [snd calls].
    auto using updates_chain_calls, updates_length.
  - intros p x. now rewrite wide_digest, sph_size.
  - intros p x. apply wide_full.
Qed.

(** C5, at the input where the code departs from it.  [fillz] of the
    twenty-four-step header initializes an object [tiger2] and leaves the
    snapshot [z_tiger2] as it was: [ZTIGER2] after [fillz] copies a context
    on which [sph_tiger2_init] was never called. *)
Theorem fillz_leaves_z_tiger2 (w : process Chain24.zstate) :
  zs (snd (Chain24.fillz w)) Chain24.z_tiger2 = zs w Chain24.z_tiger2
  /\ fst (Chain24.ZTIGER2 (snd (Chain24.fillz w))) = zs w Chain24.z_tiger2
  /\ zs (snd (Chain24.fillz w)) Chain24.tiger2
     = init (sph Tiger2) (zs w Chain24.tiger2)
  /\ (forall v, v <> Chain24.z_tiger2 ->
      zs (snd (Chain24.fillz w)) v = init (sph _) (zs w v)).
Proof.
  repeat split. apply fillz_inits24.
Qed.

(** C6, as amended.  On the empty range each definition makes its usual
    calls and no other: the first step is initialized, updated with no byte
    and closed, the later steps follow as for any message, and the result
    is the chain's value at the empty message, whatever the stack and the
    global contexts held.  The first buffer holds the first primitive's
    digest of the empty message at its start.  In the definition with
    twenty-four steps that digest, of Whirlpool-1, fills the buffer, which
    is then equal to it.  In the definition with five steps the digest of
    Panama has 32 bytes and the buffer 64: the buffer is the digest
    followed by the last 32 bytes of the newly constructed [uint512], and
    is not equal to the digest. *)
Theorem Hash9_on_empty_input :
  (forall (frame : Chain5.locals) (w : process Chain5.zstate),
     let r := Chain5.Hash9_hash frame [] w in
     firstn 3 (skipn (length (calls w)) (calls (snd r)))
     = [Init Panama; Update Panama []; Close Panama (digest (sph Panama) [])]
     /\ nth 0 (fst r) [] = wide (digest (sph Panama) [])
     /\ firstn (size (sph Panama)) (nth 0 (fst r) []) = digest (sph Panama) []
     /\ fst (Chain5.Hash9 frame [] w) = computeChainHash Chain5.steps []
     /\ calls (snd r) = calls w ++ chain_calls Chain5.steps []
     /\ nth 0 (fst r) [] = digest (sph Panama) [] ++ skipn 32 uint512_new
     /\ length (digest (sph Panama) []) = 32%nat
     /\ length (nth 0 (fst r) []) = 64%nat
     /\ nth 0 (fst r) [] <> digest (sph Panama) [])
  /\ (forall (frame : Chain24.locals) (w : process Chain24.zstate),
     let r := Chain24.Hash9_hash frame [] w in
     firstn 3 (skipn (length (calls w)) (calls (snd r)))
     = [Init Whirlpool1; Update Whirlpool1 [];
        Close Whirlpool1 (digest (sph Whirlpool1) [])]
     /\ nth 0 (fst r) [] = digest (sph Whirlpool1) []
     /\ fst (Chain24.Hash9 frame [] w) = computeChainHash Chain24.steps []
     /\ calls (snd r) = calls w ++ chain_calls Chain24.steps []
     /\ length (nth 0 (fst r) []) = 64%nat).
Proof.
  assert (Hp : length (digest (sph Panama) []) = 32%nat)
    by (now rewrite digest_length, sph_size).
  split; intros frame w r; subst r.
  - rewrite Hash9_run5, Chain5Facts.Hash9_hash_run5. cbn [fst snd calls].
    rewrite skipn_app, Nat.sub_diag, skipn_all. cbn [app skipn].
    unfold Chain5.steps. cbn [chain_buffers nth].
    repeat split.
    + apply firstn_size_wide.
    + now rewrite wide_digest, sph_size.
    + exact Hp.
    + apply wide_length.
    + intros H. apply (f_equal (@length Z)) in H.
      rewrite wide_length, Hp in H. discriminate H.
  - rewrite Hash9_run24, Chain24Facts.Hash9_hash_run24. cbn [fst snd calls].
    rewrite skipn_app, Nat.sub_diag, skipn_all. cbn [app skipn].
    unfold Chain24.steps. cbn [chain_buffers nth].
    repeat split.
    + now apply wide_full.
    + apply wide_length.
Qed.

(** C10.  [Hash9] holds no reference to the global contexts: its result is
    the same for any values of them, so also after [fillz] as before, and
    it leaves them as they were; the only calls it makes are the init,
    update and close of each step on its own contexts. *)
Theorem Hash9_ignores_globals (m : list Z) :
  (forall (frame : Chain5.locals) (w w' : process Chain5.zstate),
     fst (Chain5.Hash9 frame m w) = fst (Chain5.Hash9 frame m w')
     /\ fst (Chain5.Hash9 frame m (snd (Chain5.fillz w)))
        = fst (Chain5.Hash9 frame m w)
     /\ zs (snd (Chain5.Hash9 frame m w)) = zs w
     /\ calls (snd (Chain5.Hash9 frame m w))
        = calls w ++ chain_calls Chain5.steps m)
  /\ (forall (frame : Chain24.locals) (w w' : process Chain24.zstate),
     fst (Chain24.Hash9 frame m w) = fst (Chain24.Hash9 frame m w')
     /\ fst (Chain24.Hash9 frame m (snd (Chain24.fillz w)))
        = fst (Chain24.Hash9 frame m w)
     /\ zs (snd (Chain24.Hash9 frame m w)) = zs w
     /\ calls (snd (Chain24.Hash9 frame m w))
        = calls w ++ chain_calls Chain24.steps m).
Proof.
  split; intros frame w w'.
  - now rewrite !Hash9_run5.
  - now rewrite !Hash9_run24.
Qed.

End ChainClaims.

(** C4 as stated fails where a digest is shorter than the buffer.  With
    HAVAL-256/5 as the code has it, the twenty-first step, CubeHash-384,
    absorbs 64 bytes, and the digest the twentieth step wrote is 32 bytes
    long: the two differ. *)
Lemma step21_absorbs_more_than_haval_digest :
  let tr := calls (snd (@Chain24.Hash9 Standin.externals Standin.frame24 []
                          Standin.start24)) in
  nth 20 (updates tr) [] <> nth 19 (closes tr) [].
Proof.
  cbv zeta. intros H. apply (f_equal (@length Z)) in H.
  vm_compute in H. discriminate H.
Qed.

(** C6 as stated fails in the definition with five steps.  On the empty
    range, with a primitive of Panama's 32 bytes in the place of Panama,
    [hash[0]] after the first step has 64 bytes: it is not the digest. *)
Lemma first_buffer_is_more_than_the_panama_digest :
  nth 0 (fst (@Chain5.Hash9_hash Standin.externals Standin.frame5 []
                Standin.start5)) []
  <> digest (Standin.primitives Panama) [].
Proof.
  intros H. apply (f_equal (@length Z)) in H.
  vm_compute in H. discriminate H.
Qed.

Section HavalClaims.
Import Haval HavalFacts.

(** C7.  For every member [API(xxx, y)] of the HAVAL family, every context
    and every history of absorbed input: close leaves the context as init
    makes it (init changes nothing in it; the state words, the parameters
    and the count are those of a newly initialized context), and a cycle of
    updates and a close on the reused context, with no init between, write
    the same digest as the same cycle on a context that is new and
    initialized. *)
Theorem haval_close_leaves_initialized_context
    (xxx : Z) (y : nat) (cc fresh : sph_haval_context)
    (history cycle : list (list Z * nat)) (dst0 dst : list Z) :
  let sc := absorbed xxx y (sph_haval_init xxx y cc) history in
  let reused := fst (sph_haval_close xxx y sc dst0) in
  let new := sph_haval_init xxx y fresh in
  sph_haval_init xxx y reused = reused
  /\ (RSTATE reused, olen reused, passes reused, count reused)
     = (RSTATE new, olen new, passes new, count new)
  /\ snd (sph_haval_close xxx y (absorbed xxx y reused cycle) dst)
     = snd (sph_haval_close xxx y (absorbed xxx y new cycle) dst).
Proof.
  intros sc reused new.
  destruct (params_absorbed xxx y (sph_haval_init xxx y cc) history)
    as [Ho Hp].
  fold sc in Ho, Hp. cbn [sph_haval_init haval_init olen passes] in Ho, Hp.
  assert (Hre : reused
                = haval_init (haval_padded y sc 0 0)
                    (Z.shiftr xxx 5) (Z.of_nat y)).
  { unfold reused, sph_haval_close. now rewrite haval_close_reinit, Ho, Hp. }
  clearbody reused sc. subst reused. unfold new, sph_haval_init.
  generalize (haval_padded y sc 0 0) as done. intros done.
  split; [apply haval_init_idem | ].
  split; [apply haval_init_fields | ].
  unfold sph_haval_close.
  apply haval_close_equiv, absorbed_equiv, haval_init_equiv.
Qed.

(** C8.  An update of length 0 is a no-op, for every member of the family
    and every context: the context is returned as it was, with its state
    words, its count and its buffer, and no block is compressed. *)
Theorem haval_update_of_no_bytes
    (xxx : Z) (y : nat) (cc : sph_haval_context) (data : list Z) :
  let cc' := sph_haval xxx y cc data 0 in
  cc' = cc
  /\ RSTATE cc' = RSTATE cc
  /\ count cc' = count cc
  /\ buf cc' = buf cc
  /\ haval_counting y cc data 0 = (cc, 0%nat).
Proof.
  cbv zeta. unfold sph_haval, haval, haval_counting.
  cbn [firstn fold_left]. auto.
Qed.

(** C9.  On 32-bit words each of the macros [F1] to [F5] equals the basic
    definition from the reference paper given in the comment above it. *)
Theorem pass_functions_match_paper (x6 x5 x4 x3 x2 x1 x0 : Z) :
  word32 x6 -> word32 x5 -> word32 x4 -> word32 x3 ->
  word32 x2 -> word32 x1 -> word32 x0 ->
  F1 x6 x5 x4 x3 x2 x1 x0 = F1_paper x6 x5 x4 x3 x2 x1 x0
  /\ F2 x6 x5 x4 x3 x2 x1 x0 = F2_paper x6 x5 x4 x3 x2 x1 x0
  /\ F3 x6 x5 x4 x3 x2 x1 x0 = F3_paper x6 x5 x4 x3 x2 x1 x0
  /\ F4 x6 x5 x4 x3 x2 x1 x0 = F4_paper x6 x5 x4 x3 x2 x1 x0
  /\ F5 x6 x5 x4 x3 x2 x1 x0 = F5_paper x6 x5 x4 x3 x2 x1 x0.
Proof.
  intros H6 H5 H4 H3 H2 H1 H0.
  split; [apply F1_paper_eq | ].
  split; [now apply F2_paper_eq | ].
  split; [apply F3_paper_eq | ].
  split; [now apply F4_paper_eq | now apply F5_paper_eq].
Qed.

Lemma pass_functions_match_paper_witness :
  F1 0x243F6A88 0x85A308D3 0x13198A2E 0x03707344 0xA4093822 0x299F31D0
     0xEC4E6C89
  = F1_paper 0x243F6A88 0x85A308D3 0x13198A2E 0x03707344 0xA4093822
      0x299F31D0 0xEC4E6C89
  /\ F2 0x243F6A88 0x85A308D3 0x13198A2E 0x03707344 0xA4093822 0x299F31D0
        0xEC4E6C89
     = F2_paper 0x243F6A88 0x85A308D3 0x13198A2E 0x03707344 0xA4093822
         0x299F31D0 0xEC4E6C89
  /\ F3 0x243F6A88 0x85A308D3 0x13198A2E 0x03707344 0xA4093822 0x299F31D0
        0xEC4E6C89
     = F3_paper 0x243F6A88 0x85A308D3 0x13198A2E 0x03707344 0xA4093822
         0x299F31D0 0xEC4E6C89
  /\ F4 0x243F6A88 0x85A308D3 0x13198A2E 0x03707344 0xA4093822 0x299F31D0
        0xEC4E6C89
     = F4_paper 0x243F6A88 0x85A308D3 0x13198A2E 0x03707344 0xA4093822
         0x299F31D0 0xEC4E6C89
  /\ F5 0x243F6A88 0x85A308D3 0x13198A2E 0x03707344 0xA4093822 0x299F31D0
        0xEC4E6C89
     = F5_paper 0x243F6A88 0x85A308D3 0x13198A2E 0x03707344 0xA4093822
         0x299F31D0 0xEC4E6C89.
Proof.
  apply (pass_functions_match_paper 0x243F6A88 0x85A308D3 0x13198A2E
           0x03707344 0xA4093822 0x299F31D0 0xEC4E6C89);
    unfold word32; lia.
Defined.

End HavalClaims.

(** * Further properties of the code *)

(** ** Reasoning on the bits of a word *)

Lemma Forall_range (k : nat) (P : Z -> Prop) :
  Forall P (map Z.of_nat (seq 0 k)) -> forall n, 0 <= n < Z.of_nat k -> P n.
Proof.
  intros H n Hn. rewrite Forall_forall in H. apply H.
  apply in_map_iff. exists (Z.to_nat n). split; [lia | ].
  apply in_seq. lia.
Qed.

Lemma cons_inj {A} (x y : A) (l l' : list A) :
  x :: l = y :: l' -> x = y /\ l = l'.
Proof. intros H. now injection H. Qed.

Lemma SPH_T32_word32 x : word32 (SPH_T32 x).
Proof.
  unfold word32, SPH_T32, SPH_C32. change 0xFFFFFFFF with (Z.ones 32).
  rewrite Z.land_ones by lia. apply Z.mod_pos_bound. lia.
Qed.

Lemma word32_of_bits x :
  0 <= x -> (forall n, 32 <= n -> Z.testbit x n = false) -> word32 x.
Proof.
  intros Hx H. unfold word32.
  assert (E : x = x mod 2 ^ 32).
  { apply Z.bits_inj'. intros n Hn. destruct (Z.ltb_spec n 32).
    - now rewrite Z.mod_pow2_bits_low.
    - rewrite Z.mod_pow2_bits_high by lia. now apply H. }
  rewrite E. apply Z.mod_pos_bound. lia.
Qed.

(** Addition modulo [2 ^ 32] cancels. *)
Lemma T32_add_cancel s x y :
  SPH_T32 (s + x) = SPH_T32 (s + y) -> SPH_T32 x = SPH_T32 y.
Proof.
  unfold SPH_T32, SPH_C32. change 0xFFFFFFFF with (Z.ones 32).
  rewrite !Z.land_ones by lia. intros H.
  assert (Hx : x mod 2 ^ 32 = ((s + x) mod 2 ^ 32 - s) mod 2 ^ 32)
    by (rewrite Zminus_mod_idemp_l; f_equal; lia).
  assert (Hy : y mod 2 ^ 32 = ((s + y) mod 2 ^ 32 - s) mod 2 ^ 32)
    by (rewrite Zminus_mod_idemp_l; f_equal; lia).
  now rewrite Hx, Hy, H.
Qed.

Lemma testbit_255_high n : 8 <= n -> Z.testbit 0xFF n = false.
Proof.
  intros H. change 0xFF with (Z.ones 8).
  rewrite Z.testbit_ones_nonneg by lia. apply Z.ltb_ge. lia.
Qed.

(** Reduce a goal on bit [n], with [Hn : 0 <= n < k], to the [k] goals on
    the bits 0 to [k - 1]. *)
Ltac each_bit k n Hn :=
  pattern n; apply (Forall_range k); [ | exact Hn];
  let l := eval vm_compute in (map Z.of_nat (seq 0 k)) in
  change (map Z.of_nat (seq 0 k)) with l;
  repeat apply Forall_cons; [ .. | apply Forall_nil]; cbv beta.

(** Bring the bit of an expression at a known position down to bits of its
    variables: through the masks, the shifts and the rotations. *)
Ltac push_testbit :=
  repeat first
    [ rewrite Z.land_spec | rewrite Z.lor_spec
    | rewrite Z.shiftr_spec by (vm_compute; discriminate)
    | rewrite Z.shiftl_spec by (vm_compute; discriminate) ].

Ltac known_bits :=
  repeat match goal with
  | |- context [Z.testbit ?a (?u + ?v)] =>
      let k := eval vm_compute in (u + v) in change (u + v) with k
  | |- context [Z.testbit ?a (?u - ?v)] =>
      let k := eval vm_compute in (u - v) in change (u - v) with k
  end;
  repeat match goal with
  | |- context [Z.testbit (Zpos ?p) ?k] =>
      let b := eval vm_compute in (Z.testbit (Zpos p) k) in
      change (Z.testbit (Zpos p) k) with b
  | |- context [Z.testbit ?a (Zneg ?p)] =>
      rewrite (Z.testbit_neg_r a (Zneg p)) by reflexivity
  end;
  rewrite ?andb_true_r, ?andb_false_r, ?orb_false_r;
  cbn [orb andb].

Ltac bits_at_position :=
  unfold SPH_ROTL32, SPH_T32, SPH_C32; push_testbit; known_bits.

(** From an equation [H] of words, the equations of their bits 0 to
    [k - 1]. *)
Ltac bit_facts k H :=
  let rec go j :=
    lazymatch j with
    | k => idtac
    | _ =>
      let B := fresh "B" in
      pose proof (f_equal (fun v => Z.testbit v j) H) as B; cbv beta in B;
      revert B; bits_at_position; intros B;
      let j' := eval vm_compute in (j + 1) in go j'
    end in
  go 0.

(** Two words of 32 bits are equal when the context holds the equations of
    their bits 0 to 31. *)
Ltac equal_words :=
  let n := fresh "n" in
  let Hn := fresh "Hn" in
  let Hr := fresh "Hr" in
  let Hr' := fresh "Hr" in
  apply Z.bits_inj'; intros n Hn;
  destruct (Z.ltb_spec n 32) as [Hr | Hr];
  [ assert (Hr' : 0 <= n < Z.of_nat 32) by lia; clear Hn Hr;
    each_bit 32%nat n Hr'; assumption
  | now rewrite !word32_high_bit by assumption ].

(** Two bytes cut out by the mask [0xFF] are equal when their bits 0 to 7
    are. *)
Ltac equal_bytes :=
  let n := fresh "n" in
  let Hn := fresh "Hn" in
  let Hr := fresh "Hr" in
  let Hr' := fresh "Hr" in
  apply Z.bits_inj'; intros n Hn;
  destruct (Z.ltb_spec n 8) as [Hr | Hr];
  [ assert (Hr' : 0 <= n < Z.of_nat 8) by lia; clear Hn Hr;
    each_bit 8%nat n Hr'; bits_at_position; reflexivity
  | rewrite !(Z.land_spec _ 0xFF), (testbit_255_high n Hr), !andb_false_r;
    reflexivity ].

(** The equations of the elements of two lists of the same explicit
    length. *)
Ltac list_eqs H :=
  repeat (apply cons_inj in H;
          let E := fresh "E" in destruct H as [E H]);
  clear H.

Ltac cancel_kept :=
  repeat match goal with
  | H : SPH_T32 (?s + _) = SPH_T32 (?s + _) |- _ => apply T32_add_cancel in H
  end.

Ltac uncons dst Hlen :=
  destruct dst as [ | ? dst]; [cbn in Hlen; lia | ].

Module HavalMoreFacts.
Import Haval HavalFacts HavalNotions.

#[local] Hint Rewrite RSTATE_WSTATE buf_WSTATE olen_WSTATE passes_WSTATE
  count_WSTATE RSTATE_set_count buf_set_count olen_set_count passes_set_count
  count_set_count RSTATE_set_buf buf_set_buf olen_set_buf passes_set_buf
  count_set_buf : haval_ctx.

(** *** Bytes and words *)

Lemma byte_high_bit x n : is_byte x -> 8 <= n -> Z.testbit x n = false.
Proof.
  intros Hx Hn. unfold is_byte in Hx.
  rewrite <- (Z.mod_small x (2 ^ 8)) by assumption.
  apply Z.mod_pow2_bits_high. lia.
Qed.

(** The bits of a byte at a known position 8 or above. *)
Ltac byte_bits :=
  repeat match goal with
  | H : is_byte ?x |- context [Z.testbit ?x (Zpos ?p)] =>
      rewrite (byte_high_bit x (Zpos p) H) by (vm_compute; discriminate)
  end;
  cbn [orb andb]; rewrite ?orb_false_r.

Lemma land_255_byte x : is_byte (Z.land x 0xFF).
Proof.
  unfold is_byte. change 0xFF with (Z.ones 8). rewrite Z.land_ones by lia.
  apply Z.mod_pos_bound. lia.
Qed.

Lemma le_bytes32_length v : length (le_bytes32 v) = 4%nat.
Proof. reflexivity. Qed.

Lemma le_bytes32_bytes v : Forall is_byte (le_bytes32 v).
Proof. unfold le_bytes32. repeat constructor; apply land_255_byte. Qed.

Lemma flat_map_le_bytes32_length ws :
  length (flat_map le_bytes32 ws) = (4 * length ws)%nat.
Proof.
  induction ws as [ | w ws IH]; cbn [flat_map]; [reflexivity | ].
  rewrite length_app, IH, le_bytes32_length. cbn [length]. lia.
Qed.

Lemma flat_map_le_bytes32_bytes ws : Forall is_byte (flat_map le_bytes32 ws).
Proof.
  induction ws as [ | w ws IH]; cbn [flat_map]; [constructor | ].
  apply Forall_app. split; [apply le_bytes32_bytes | exact IH].
Qed.

(** The little-endian encoding loses nothing of a word of 32 bits. *)
Lemma le_bytes32_inj v v' :
  word32 v -> word32 v' -> le_bytes32 v = le_bytes32 v' -> v = v'.
Proof.
  intros Hv Hv' H. unfold le_bytes32 in H. list_eqs H.
  repeat match goal with
  | E : Z.land _ 0xFF = Z.land _ 0xFF |- _ => bit_facts 8 E; clear E
  end.
  equal_words.
Qed.

Lemma flat_map_le_bytes32_inj ws ws' :
  Forall word32 ws -> Forall word32 ws' -> length ws = length ws' ->
  flat_map le_bytes32 ws = flat_map le_bytes32 ws' -> ws = ws'.
Proof.
  intros H. revert ws'.
  induction H as [ | w ws Hw Hws IH]; intros ws' H' Hlen Heq;
    destruct H' as [ | w' ws' Hw' Hws']; try discriminate Hlen;
    [reflexivity | ].
  cbn [flat_map] in Heq.
  pose proof (f_equal (firstn 4) Heq) as Hhd.
  pose proof (f_equal (skipn 4) Heq) as Htl.
  change (le_bytes32 w = le_bytes32 w') in Hhd.
  change (flat_map le_bytes32 ws = flat_map le_bytes32 ws') in Htl.
  f_equal.
  - now apply le_bytes32_inj.
  - apply IH; [assumption | | assumption]. now injection Hlen.
Qed.

(** Decoding four bytes and encoding the word gives the bytes back. *)
Lemma le_bytes32_of_decoded (b0 b1 b2 b3 : Z) :
  is_byte b0 -> is_byte b1 -> is_byte b2 -> is_byte b3 ->
  le_bytes32 (Z.lor (Z.lor (Z.lor b0 (Z.shiftl b1 8)) (Z.shiftl b2 16))
                    (Z.shiftl b3 24))
  = [b0; b1; b2; b3].
Proof.
  intros H0 H1 H2 H3. unfold le_bytes32.
  repeat apply (f_equal2 (@cons Z)); try reflexivity;
    apply Z.bits_inj'; intros n Hn;
    (destruct (Z.ltb_spec n 8) as [Hr | Hr];
     [ assert (Hr' : 0 <= n < Z.of_nat 8) by lia; clear Hn Hr;
       each_bit 8%nat n Hr'; bits_at_position; byte_bits; reflexivity
     | rewrite (Z.land_spec _ 0xFF), (testbit_255_high n Hr), andb_false_r;
       symmetry; now apply byte_high_bit ]).
Qed.

Lemma decoded_word32 (b0 b1 b2 b3 : Z) :
  is_byte b0 -> is_byte b1 -> is_byte b2 -> is_byte b3 ->
  word32 (Z.lor (Z.lor (Z.lor b0 (Z.shiftl b1 8)) (Z.shiftl b2 16))
                (Z.shiftl b3 24)).
Proof.
  intros H0 H1 H2 H3. apply word32_of_bits.
  - unfold is_byte in *. rewrite !Z.lor_nonneg, !Z.shiftl_nonneg. lia.
  - intros n Hn. rewrite !Z.lor_spec, !Z.shiftl_spec by lia.
    now rewrite !byte_high_bit by (assumption || lia).
Qed.

(** *** What [haval_out] writes *)

Lemma olen_cases (o : Z) :
  4 <= o <= 8 -> o = 4 \/ o = 5 \/ o = 6 \/ o = 7 \/ o = 8.
Proof. lia. Qed.

Lemma out_words_length sc :
  4 <= olen sc <= 8 -> length (out_words sc) = Z.to_nat (olen sc).
Proof.
  intros H. unfold out_words. destruct (RSTATE sc).
  destruct (olen_cases _ H) as [-> | [-> | [-> | [-> | ->]]]]; reflexivity.
Qed.

(** The output is the encoding of [out_words], one word after the other,
    and the rest of the buffer. *)
Lemma haval_out_words sc dst :
  4 <= olen sc <= 8 -> (Z.to_nat (4 * olen sc) <= length dst)%nat ->
  haval_out sc dst
  = flat_map le_bytes32 (out_words sc) ++ skipn (Z.to_nat (4 * olen sc)) dst.
Proof.
  intros H Hlen. unfold haval_out, out_words. destruct (RSTATE sc).
  destruct (olen_cases _ H) as [Ho | [Ho | [Ho | [Ho | Ho]]]];
    rewrite Ho in *; clear Ho H.
  - change (Z.to_nat (4 * 4)) with 16%nat in *.
    do 16 uncons dst Hlen. reflexivity.
  - change (Z.to_nat (4 * 5)) with 20%nat in *.
    do 20 uncons dst Hlen. reflexivity.
  - change (Z.to_nat (4 * 6)) with 24%nat in *.
    do 24 uncons dst Hlen. reflexivity.
  - change (Z.to_nat (4 * 7)) with 28%nat in *.
    do 28 uncons dst Hlen. reflexivity.
  - change (Z.to_nat (4 * 8)) with 32%nat in *.
    do 32 uncons dst Hlen. reflexivity.
Qed.

Lemma out_bytes_length sc :
  4 <= olen sc <= 8 ->
  length (flat_map le_bytes32 (out_words sc)) = Z.to_nat (4 * olen sc).
Proof.
  intros H. rewrite flat_map_le_bytes32_length, out_words_length by exact H.
  lia.
Qed.

Lemma haval_out_frame (sc : sph_haval_context) (dst : list Z) :
  4 <= olen sc <= 8 -> (Z.to_nat (4 * olen sc) <= length dst)%nat ->
  let n := Z.to_nat (4 * olen sc) in
  length (haval_out sc dst) = length dst
  /\ skipn n (haval_out sc dst) = skipn n dst
  /\ Forall is_byte (firstn n (haval_out sc dst)).
Proof.
  intros H Hlen n. subst n. rewrite haval_out_words by assumption.
  pose proof (out_bytes_length sc H) as Hl.
  repeat split.
  - rewrite length_app, length_skipn, Hl. lia.
  - rewrite skipn_app, Hl, Nat.sub_diag, skipn_all2 by lia. reflexivity.
  - rewrite firstn_app, Hl, Nat.sub_diag, firstn_all2 by lia.
    cbn [firstn]. rewrite app_nil_r. apply flat_map_le_bytes32_bytes.
Qed.

(** The digest: the bytes [haval_out] writes at the start of a buffer that
    holds them. *)
Lemma haval_out_digest (sc : sph_haval_context) (dst : list Z) :
  4 <= olen sc <= 8 -> (Z.to_nat (4 * olen sc) <= length dst)%nat ->
  firstn (Z.to_nat (4 * olen sc)) (haval_out sc dst)
  = flat_map le_bytes32 (out_words sc).
Proof.
  intros H Hlen. rewrite haval_out_words by assumption.
  pose proof (out_bytes_length sc H) as Hl.
  rewrite firstn_app, Hl, Nat.sub_diag, firstn_all2 by lia.
  cbn [firstn]. apply app_nil_r.
Qed.

Lemma out_words_256 sc : olen sc = 8 -> out_words sc = WVAL (RSTATE sc).
Proof.
  intros Ho. unfold out_words. rewrite Ho. now destruct (RSTATE sc).
Qed.

Lemma out_words_word32 sc :
  4 <= olen sc < 8 -> Forall word32 (out_words sc).
Proof.
  intros H. unfold out_words. destruct (RSTATE sc).
  assert (Hc : olen sc = 4 \/ olen sc = 5 \/ olen sc = 6 \/ olen sc = 7)
    by lia.
  destruct Hc as [-> | [-> | [-> | ->]]];
    repeat constructor; apply SPH_T32_word32.
Qed.

Lemma RVAL_WVAL s : RVAL (WVAL s) = s.
Proof. now destruct s. Qed.

Lemma regs_word32 s0 s1 s2 s3 s4 s5 s6 s7 :
  Forall word32 (WVAL (Regs s0 s1 s2 s3 s4 s5 s6 s7)) ->
  word32 s0 /\ word32 s1 /\ word32 s2 /\ word32 s3
  /\ word32 s4 /\ word32 s5 /\ word32 s6 /\ word32 s7.
Proof.
  cbn [WVAL]. intros H.
  repeat match goal with
  | H : Forall _ (_ :: _) |- _ => apply Forall_cons_iff in H; destruct H
  end.
  tauto.
Qed.

(** *** The tailoring folds every bit of the words it drops

    For each output length below 256 bits, the words that [haval_out] adds
    to the words it keeps determine the words it drops. *)

Lemma mix224_inj x7 y7 :
  word32 x7 -> word32 y7 ->
  SPH_T32 (Z.land (Z.shiftr x7 27) 0x1F)
  = SPH_T32 (Z.land (Z.shiftr y7 27) 0x1F) ->
  SPH_T32 (Z.land (Z.shiftr x7 22) 0x1F)
  = SPH_T32 (Z.land (Z.shiftr y7 22) 0x1F) ->
  SPH_T32 (Z.land (Z.shiftr x7 18) 0x0F)
  = SPH_T32 (Z.land (Z.shiftr y7 18) 0x0F) ->
  SPH_T32 (Z.land (Z.shiftr x7 13) 0x1F)
  = SPH_T32 (Z.land (Z.shiftr y7 13) 0x1F) ->
  SPH_T32 (Z.land (Z.shiftr x7 9) 0x0F)
  = SPH_T32 (Z.land (Z.shiftr y7 9) 0x0F) ->
  SPH_T32 (Z.land (Z.shiftr x7 4) 0x1F)
  = SPH_T32 (Z.land (Z.shiftr y7 4) 0x1F) ->
  SPH_T32 (Z.land x7 0x0F) = SPH_T32 (Z.land y7 0x0F) ->
  x7 = y7.
Proof.
  intros Wx Wy H0 H1 H2 H3 H4 H5 H6.
  bit_facts 5 H0. bit_facts 5 H1. bit_facts 4 H2. bit_facts 5 H3.
  bit_facts 4 H4. bit_facts 5 H5. bit_facts 4 H6.
  equal_words.
Qed.

Lemma mix192_inj x6 x7 y6 y7 :
  word32 x6 -> word32 x7 -> word32 y6 -> word32 y7 ->
  SPH_T32 (mix192_0 x6 x7) = SPH_T32 (mix192_0 y6 y7) ->
  SPH_T32 (mix192_1 x6 x7) = SPH_T32 (mix192_1 y6 y7) ->
  SPH_T32 (mix192_2 x6 x7) = SPH_T32 (mix192_2 y6 y7) ->
  SPH_T32 (mix192_3 x6 x7) = SPH_T32 (mix192_3 y6 y7) ->
  SPH_T32 (mix192_4 x6 x7) = SPH_T32 (mix192_4 y6 y7) ->
  SPH_T32 (mix192_5 x6 x7) = SPH_T32 (mix192_5 y6 y7) ->
  x6 = y6 /\ x7 = y7.
Proof.
  intros W6 W7 W6' W7' H0 H1 H2 H3 H4 H5.
  unfold mix192_0, mix192_1, mix192_2, mix192_3, mix192_4, mix192_5 in *.
  cbv zeta in *.
  bit_facts 11 H0. bit_facts 10 H1. bit_facts 11 H2. bit_facts 11 H3.
  bit_facts 10 H4. bit_facts 11 H5.
  split; equal_words.
Qed.

Lemma mix160_inj x5 x6 x7 y5 y6 y7 :
  word32 x5 -> word32 x6 -> word32 x7 ->
  word32 y5 -> word32 y6 -> word32 y7 ->
  SPH_T32 (mix160_0 x5 x6 x7) = SPH_T32 (mix160_0 y5 y6 y7) ->
  SPH_T32 (mix160_1 x5 x6 x7) = SPH_T32 (mix160_1 y5 y6 y7) ->
  SPH_T32 (mix160_2 x5 x6 x7) = SPH_T32 (mix160_2 y5 y6 y7) ->
  SPH_T32 (mix160_3 x5 x6 x7) = SPH_T32 (mix160_3 y5 y6 y7) ->
  SPH_T32 (mix160_4 x5 x6 x7) = SPH_T32 (mix160_4 y5 y6 y7) ->
  x5 = y5 /\ x6 = y6 /\ x7 = y7.
Proof.
  intros W5 W6 W7 W5' W6' W7' H0 H1 H2 H3 H4.
  unfold mix160_0, mix160_1, mix160_2, mix160_3, mix160_4 in *.
  cbv zeta in *.
  bit_facts 19 H0. bit_facts 19 H1. bit_facts 19 H2. bit_facts 19 H3.
  bit_facts 20 H4.
  repeat split; equal_words.
Qed.

Lemma mix128_rotated a0 a1 a2 a3 n :
  0 < n ->
  mix128 a0 a1 a2 a3 n
  = SPH_ROTL32
      (Z.lor (Z.lor (Z.lor (Z.land a0 0x000000FF) (Z.land a1 0x0000FF00))
                    (Z.land a2 0x00FF0000)) (Z.land a3 0xFF000000)) n.
Proof.
  intros H. unfold mix128. cbv zeta.
  destruct (Z.ltb_spec 0 n); [reflexivity | lia].
Qed.

Lemma mix128_inj x4 x5 x6 x7 y4 y5 y6 y7 :
  word32 x4 -> word32 x5 -> word32 x6 -> word32 x7 ->
  word32 y4 -> word32 y5 -> word32 y6 -> word32 y7 ->
  SPH_T32 (mix128 x7 x4 x5 x6 24) = SPH_T32 (mix128 y7 y4 y5 y6 24) ->
  SPH_T32 (mix128 x6 x7 x4 x5 16) = SPH_T32 (mix128 y6 y7 y4 y5 16) ->
  SPH_T32 (mix128 x5 x6 x7 x4 8) = SPH_T32 (mix128 y5 y6 y7 y4 8) ->
  SPH_T32 (mix128 x4 x5 x6 x7 0) = SPH_T32 (mix128 y4 y5 y6 y7 0) ->
  x4 = y4 /\ x5 = y5 /\ x6 = y6 /\ x7 = y7.
Proof.
  intros W4 W5 W6 W7 W4' W5' W6' W7' H0 H1 H2 H3.
  rewrite !mix128_rotated in H0, H1, H2 by lia.
  unfold mix128 in H3. cbv zeta in H3.
  change (0 <? 0) with false in H3. cbv iota in H3.
  bit_facts 32 H0. bit_facts 32 H1. bit_facts 32 H2. bit_facts 32 H3.
  repeat split; equal_words.
Qed.

(** *** The fifteen members of the family *)

Lemma API_instances_cases (xxx : Z) (y : nat) :
  In (xxx, y) API_instances ->
  (xxx = 128 \/ xxx = 160 \/ xxx = 192 \/ xxx = 224 \/ xxx = 256)
  /\ (y = 3 \/ y = 4 \/ y = 5)%nat.
Proof.
  unfold API_instances. cbn [In]. intros H.
  repeat (destruct H as [H | H];
          [apply pair_equal_spec in H; destruct H as [<- <-]; lia | ]).
  contradiction.
Qed.

(** *** The compression function and the update *)

Lemma UPDATE_STATE_words s u :
  length (WVAL (UPDATE_STATE s u)) = 8%nat
  /\ Forall word32 (WVAL (UPDATE_STATE s u)).
Proof.
  destruct s, u. cbn [UPDATE_STATE WVAL]. split; [reflexivity | ].
  repeat constructor; apply SPH_T32_word32.
Qed.

Lemma fill_level_succ c :
  (S (Z.to_nat (Z.land c 127)) < 128)%nat ->
  Z.to_nat (Z.land (SPH_T64 (c + 1)) 127) = S (Z.to_nat (Z.land c 127)).
Proof.
  unfold SPH_T64. rewrite <- Z.land_assoc.
  change (Z.land 0xFFFFFFFFFFFFFFFF 127) with (Z.ones 7).
  change 127 with (Z.ones 7). rewrite !Z.land_ones by lia.
  rewrite <- Z.add_mod_idemp_l by lia.
  pose proof (Z.mod_pos_bound c (2 ^ 7)) as Hb. intros Hlt.
  rewrite (Z.mod_small (c mod 2 ^ 7 + 1)) by lia. lia.
Qed.

Lemma fill_level_wrap c :
  S (Z.to_nat (Z.land c 127)) = 128%nat ->
  Z.to_nat (Z.land (SPH_T64 (c + 1)) 127) = 0%nat.
Proof.
  unfold SPH_T64. rewrite <- Z.land_assoc.
  change (Z.land 0xFFFFFFFFFFFFFFFF 127) with (Z.ones 7).
  change 127 with (Z.ones 7). rewrite !Z.land_ones by lia.
  rewrite <- Z.add_mod_idemp_l by lia.
  pose proof (Z.mod_pos_bound c (2 ^ 7)) as Hb. intros Hlt.
  replace (c mod 2 ^ 7 + 1) with (2 ^ 7) by lia.
  now rewrite Z.mod_same by lia.
Qed.

(** Bytes short of a block are stored and nothing is compressed. *)
Lemma haval_partial P (l : list Z) : forall sc,
  (fill_level sc + length l < 128)%nat ->
  let sc' := fold_left (haval_byte P) l sc in
  RSTATE sc' = RSTATE sc
  /\ fill_level sc' = (fill_level sc + length l)%nat
  /\ (forall i, (i < fill_level sc)%nat -> buf sc' i = buf sc i)
  /\ (forall i, (i < length l)%nat ->
      buf sc' (fill_level sc + i)%nat = nth i l 0).
Proof.
  induction l as [ | x l IH]; intros sc Hlen; cbn [fold_left length] in *.
  - repeat split; try lia.
  - set (sc1 := haval_byte P sc x).
    assert (H1 : RSTATE sc1 = RSTATE sc
                 /\ fill_level sc1 = S (fill_level sc)
                 /\ buf sc1 = buf_put (buf sc) (fill_level sc) x).
    { subst sc1. unfold haval_byte. fold (fill_level sc).
      destruct (Nat.eqb_spec (S (fill_level sc)) 128) as [E | E];
        [exfalso; clear - Hlen E; lia | ].
      unfold fill_level at 1. autorewrite with haval_ctx.
      repeat split. apply fill_level_succ.
      unfold fill_level in *. lia. }
    destruct H1 as (Hs & Hf & Hb). clearbody sc1.
    destruct (IH sc1 ltac:(lia)) as (Is & If & Ib & Il).
    rewrite Is, If, Hs, Hf. repeat split; [lia | | ].
    + intros i Hi. rewrite Ib by lia. rewrite Hb. unfold buf_put.
      destruct (Nat.eqb_spec i (fill_level sc)); [lia | reflexivity].
    + intros i Hi. destruct i as [ | i].
      * rewrite Nat.add_0_r, Ib by lia. rewrite Hb. unfold buf_put.
        now rewrite Nat.eqb_refl.
      * cbn [nth]. rewrite <- Il by lia. rewrite Hf. f_equal. lia.
Qed.

(** A block absorbed at a block boundary: the state words go through
    [CORE] on the decoded block, and the buffer is empty again. *)
Lemma haval_block P (sc : sph_haval_context) (block : list Z) :
  fill_level sc = 0%nat -> length block = 128%nat ->
  RSTATE (haval P sc block 128)
  = CORE P (INMSG (IN_PREPARE (fun i => nth i block 0))) (RSTATE sc)
  /\ fill_level (haval P sc block 128) = 0%nat.
Proof.
  intros Hf Hlen. unfold haval. rewrite firstn_all2 by lia.
  destruct (exists_last (l := block)) as [l [x ->]];
    [intros ->; discriminate Hlen | ].
  rewrite length_app in Hlen. cbn [length] in Hlen.
  rewrite fold_left_app. cbn [fold_left].
  destruct (haval_partial P l sc ltac:(lia)) as (Hs & Hl & _ & Hb).
  set (sc1 := fold_left (haval_byte P) l sc) in *. clearbody sc1.
  rewrite Hf in Hl, Hb. cbn [Nat.add] in Hl, Hb.
  unfold haval_byte. fold (fill_level sc1). rewrite Hl.
  replace (S (length l)) with 128%nat by lia. cbn [Nat.eqb].
  unfold fill_level. autorewrite with haval_ctx. split.
  - rewrite Hs. change INW with INMSG. f_equal. f_equal.
    apply IN_PREPARE_agree. intros i Hi. unfold buf_put.
    destruct (Nat.eqb_spec i (length l)) as [-> | Hne].
    + now rewrite nth_middle.
    + rewrite app_nth1 by lia. apply Hb. lia.
  - apply fill_level_wrap. fold (fill_level sc1). lia.
Qed.

(** *** The step *)

Lemma testbit_T32 x n :
  0 <= n -> Z.testbit (SPH_T32 x) n = Z.testbit x n && (n <? 32).
Proof.
  intros Hn. unfold SPH_T32, SPH_C32. rewrite Z.land_spec.
  change 0xFFFFFFFF with (Z.ones 32).
  now rewrite Z.testbit_ones_nonneg by lia.
Qed.

(** Bit [m] of a word is bit [m - 11], counted round the 32 positions, of
    the word rotated to the right by 11. *)
Lemma rotr11_bit x m :
  word32 x -> 0 <= m < 32 ->
  Z.testbit x m
  = Z.testbit (SPH_T32 (SPH_ROTR32 x 11))
      (if m <? 11 then m + 21 else m - 11).
Proof.
  intros Hx Hm. unfold SPH_ROTR32, SPH_ROTL32.
  change (32 - 11) with 21. change (32 - 21) with 11.
  destruct (Z.ltb_spec m 11).
  - rewrite !testbit_T32, Z.lor_spec, Z.shiftl_spec, Z.shiftr_spec by lia.
    replace (m + 21 - 21) with m by lia.
    rewrite (word32_high_bit x (m + 21 + 11)) by (assumption || lia).
    destruct (Z.ltb_spec (m + 21) 32); [ | lia].
    now rewrite orb_false_r, !andb_true_r.
  - rewrite !testbit_T32, Z.lor_spec, Z.shiftl_spec, Z.shiftr_spec by lia.
    replace (m - 11 + 11) with m by lia.
    rewrite (Z.testbit_neg_r x (m - 11 - 21)) by lia.
    destruct (Z.ltb_spec (m - 11) 32); [ | lia].
    now rewrite !andb_true_r.
Qed.

End HavalMoreFacts.

(** ** HAVAL: the output, the tailoring and the compression function *)

Section HavalProperties.
Import Haval HavalFacts HavalNotions HavalMoreFacts.

(** X1.  For an output length of 4 to 8 words and a buffer that holds it,
    [haval_out] writes exactly [4 * olen] bytes: the buffer keeps its
    length, every byte after the digest is left as it was, and the bytes
    written are values of an [unsigned char]. *)
Theorem haval_out_writes_the_digest_only
    (sc : sph_haval_context) (dst : list Z) :
  4 <= olen sc <= 8 -> (Z.to_nat (4 * olen sc) <= length dst)%nat ->
  let n := Z.to_nat (4 * olen sc) in
  length (haval_out sc dst) = length dst
  /\ skipn n (haval_out sc dst) = skipn n dst
  /\ Forall is_byte (firstn n (haval_out sc dst)).
Proof.
  intros H Hlen n. subst n.
  pose proof (out_bytes_length sc H) as Hl.
  rewrite haval_out_digest, haval_out_words by assumption.
  repeat split.
  - rewrite length_app, length_skipn, Hl. lia.
  - rewrite skipn_app, Hl, Nat.sub_diag, skipn_all2 by lia. reflexivity.
  - apply flat_map_le_bytes32_bytes.
Qed.

Lemma haval_out_writes_the_digest_only_witness :
  let sc := haval_init zero_context 5 3 in
  let dst := repeat 0xEE 24 in
  length (haval_out sc dst) = 24%nat
  /\ skipn 20 (haval_out sc dst) = skipn 20 dst
  /\ Forall is_byte (firstn 20 (haval_out sc dst)).
Proof.
  apply (haval_out_writes_the_digest_only
           (haval_init zero_context 5 3) (repeat 0xEE 24));
    [cbn; lia | vm_compute; lia].
Defined.

(** X2.  The [switch] of [haval_out] has no default case: with an output
    length that is not 4 to 8 words, as in a context on which init was
    never called, nothing is written and the buffer is returned as it
    was. *)
Theorem haval_out_of_another_length
    (sc : sph_haval_context) (dst : list Z) :
  ~ 4 <= olen sc <= 8 -> haval_out sc dst = dst.
Proof.
  intros H. unfold haval_out. destruct (RSTATE sc).
  destruct (olen sc) as [ | p | p]; try reflexivity.
  repeat (match goal with q : positive |- _ => destruct q end;
          try reflexivity; try lia).
Qed.

Lemma haval_out_of_another_length_witness :
  haval_out zero_context [1; 2; 3] = [1; 2; 3].
Proof.
  apply (haval_out_of_another_length zero_context [1; 2; 3]). cbn. lia.
Defined.

(** X3.  The tailoring to 128, 160, 192 and 224 bits folds every bit of the
    state words it does not write.  Two contexts with the same output
    length below 8 words and the same words [s0] to [s(olen - 1)] write the
    same digest only if all eight state words are the same: no bit of the
    dropped words is lost before the addition. *)
Theorem tailoring_keeps_every_bit
    (a b : sph_haval_context) (dst dst' : list Z) :
  4 <= olen a < 8 -> olen b = olen a ->
  (Z.to_nat (4 * olen a) <= length dst)%nat ->
  (Z.to_nat (4 * olen a) <= length dst')%nat ->
  Forall word32 (WVAL (RSTATE a)) -> Forall word32 (WVAL (RSTATE b)) ->
  firstn (Z.to_nat (olen a)) (WVAL (RSTATE a))
  = firstn (Z.to_nat (olen a)) (WVAL (RSTATE b)) ->
  firstn (Z.to_nat (4 * olen a)) (haval_out a dst)
  = firstn (Z.to_nat (4 * olen a)) (haval_out b dst') ->
  RSTATE a = RSTATE b.
Proof.
  intros Ho Hob Hlen Hlen' Wa Wb Hkept Hout.
  rewrite haval_out_digest in Hout by (lia || assumption).
  rewrite <- Hob in Hout.
  rewrite haval_out_digest in Hout by (rewrite ?Hob; (lia || assumption)).
  assert (Hw : out_words a = out_words b).
  { apply flat_map_le_bytes32_inj; [ | | | exact Hout].
    - now apply out_words_word32.
    - apply out_words_word32. now rewrite Hob.
    - rewrite !out_words_length by (rewrite ?Hob; lia). now rewrite Hob. }
  clear Hout. unfold out_words in Hw. rewrite Hob in Hw.
  destruct (RSTATE a) as [a0 a1 a2 a3 a4 a5 a6 a7].
  destruct (RSTATE b) as [b0 b1 b2 b3 b4 b5 b6 b7].
  apply regs_word32 in Wa, Wb.
  destruct Wa as (Wa0 & Wa1 & Wa2 & Wa3 & Wa4 & Wa5 & Wa6 & Wa7).
  destruct Wb as (Wb0 & Wb1 & Wb2 & Wb3 & Wb4 & Wb5 & Wb6 & Wb7).
  assert (Hc : olen a = 4 \/ olen a = 5 \/ olen a = 6 \/ olen a = 7) by lia.
  destruct Hc as [Hc | [Hc | [Hc | Hc]]]; rewrite Hc in Hkept, Hw;
    cbn [WVAL] in Hkept.
  - change (Z.to_nat 4) with 4%nat in Hkept. cbn [firstn] in Hkept.
    list_eqs Hkept. subst. list_eqs Hw. cancel_kept.
    destruct (mix128_inj a4 a5 a6 a7 b4 b5 b6 b7) as (<- & <- & <- & <-);
      auto.
  - change (Z.to_nat 5) with 5%nat in Hkept. cbn [firstn] in Hkept.
    list_eqs Hkept. subst. list_eqs Hw. cancel_kept.
    destruct (mix160_inj a5 a6 a7 b5 b6 b7) as (<- & <- & <-); auto.
  - change (Z.to_nat 6) with 6%nat in Hkept. cbn [firstn] in Hkept.
    list_eqs Hkept. subst. list_eqs Hw. cancel_kept.
    destruct (mix192_inj a6 a7 b6 b7) as (<- & <-); auto.
  - change (Z.to_nat 7) with 7%nat in Hkept. cbn [firstn] in Hkept.
    list_eqs Hkept. subst. list_eqs Hw. cancel_kept.
    rewrite (mix224_inj a7 b7); auto.
Qed.

Lemma tailoring_keeps_every_bit_witness :
  RSTATE (haval_init zero_context 5 3)
  = RSTATE (set_count (haval_init zero_context 5 3) 7).
Proof.
  apply (tailoring_keeps_every_bit
           (haval_init zero_context 5 3)
           (set_count (haval_init zero_context 5 3) 7)
           (repeat 0 20) (repeat 0xEE 24)).
  - cbn. lia.
  - reflexivity.
  - vm_compute. lia.
  - vm_compute. lia.
  - cbn. repeat (apply Forall_cons; [unfold word32, SPH_C32; lia | ]).
    apply Forall_nil.
  - cbn. repeat (apply Forall_cons; [unfold word32, SPH_C32; lia | ]).
    apply Forall_nil.
  - reflexivity.
  - reflexivity.
Defined.

(** X4.  For 256 bits there is no tailoring: the digest is the
    little-endian encoding of the eight state words, one after the other,
    and two contexts write the same digest only if their state words are
    the same. *)
Theorem digest_of_256_bits_is_the_state
    (a b : sph_haval_context) (dst dst' : list Z) :
  olen a = 8 -> olen b = 8 ->
  (32 <= length dst)%nat -> (32 <= length dst')%nat ->
  Forall word32 (WVAL (RSTATE a)) -> Forall word32 (WVAL (RSTATE b)) ->
  firstn 32 (haval_out a dst) = flat_map le_bytes32 (WVAL (RSTATE a))
  /\ (firstn 32 (haval_out a dst) = firstn 32 (haval_out b dst') ->
      RSTATE a = RSTATE b).
Proof.
  intros Ha Hb Hlen Hlen' Wa Wb.
  assert (Da : firstn 32 (haval_out a dst)
               = flat_map le_bytes32 (WVAL (RSTATE a))).
  { rewrite <- (out_words_256 a Ha).
    change 32%nat with (Z.to_nat (4 * 8)). rewrite <- Ha.
    apply haval_out_digest; rewrite Ha; [lia | exact Hlen]. }
  assert (Db : firstn 32 (haval_out b dst')
               = flat_map le_bytes32 (WVAL (RSTATE b))).
  { rewrite <- (out_words_256 b Hb).
    change 32%nat with (Z.to_nat (4 * 8)). rewrite <- Hb.
    apply haval_out_digest; rewrite Hb; [lia | exact Hlen']. }
  split; [exact Da | ]. rewrite Da, Db. intros H.
  apply flat_map_le_bytes32_inj in H; try assumption.
  - now rewrite <- (RVAL_WVAL (RSTATE a)), H, RVAL_WVAL.
  - now destruct (RSTATE a), (RSTATE b).
Qed.

Lemma digest_of_256_bits_is_the_state_witness :
  let a := haval_init zero_context 8 5 in
  let b := set_count (haval_init zero_context 8 5) 7 in
  firstn 32 (haval_out a (repeat 0 32))
  = flat_map le_bytes32 (WVAL (RSTATE a))
  /\ (firstn 32 (haval_out a (repeat 0 32))
      = firstn 32 (haval_out b (repeat 0xEE 40)) ->
      RSTATE a = RSTATE b).
Proof.
  apply (digest_of_256_bits_is_the_state
           (haval_init zero_context 8 5)
           (set_count (haval_init zero_context 8 5) 7)
           (repeat 0 32) (repeat 0xEE 40)).
  - reflexivity.
  - reflexivity.
  - vm_compute. lia.
  - vm_compute. lia.
  - cbn. repeat (apply Forall_cons; [unfold word32, SPH_C32; lia | ]).
    apply Forall_nil.
  - cbn. repeat (apply Forall_cons; [unfold word32, SPH_C32; lia | ]).
    apply Forall_nil.
Defined.

(** X5.  [mix128] does what its comment says: it takes byte 0 from [a0],
    byte 1 from [a1], byte 2 from [a2] and byte 3 from [a3], and rotates
    the word they make to the left by [n] bits.  For the four rotations
    [haval_out] uses, the bytes of the result are those four bytes, moved
    round by [n / 8] places. *)
Theorem mix128_takes_one_byte_of_each_word (a0 a1 a2 a3 : Z) :
  le_bytes32 (mix128 a0 a1 a2 a3 0)
  = [byte_of 0 a0; byte_of 1 a1; byte_of 2 a2; byte_of 3 a3]
  /\ le_bytes32 (mix128 a0 a1 a2 a3 8)
     = [byte_of 3 a3; byte_of 0 a0; byte_of 1 a1; byte_of 2 a2]
  /\ le_bytes32 (mix128 a0 a1 a2 a3 16)
     = [byte_of 2 a2; byte_of 3 a3; byte_of 0 a0; byte_of 1 a1]
  /\ le_bytes32 (mix128 a0 a1 a2 a3 24)
     = [byte_of 1 a1; byte_of 2 a2; byte_of 3 a3; byte_of 0 a0].
Proof.
  rewrite (mix128_rotated _ _ _ _ 8), (mix128_rotated _ _ _ _ 16),
    (mix128_rotated _ _ _ _ 24) by lia.
  unfold mix128, le_bytes32, byte_of. cbv zeta.
  change (0 <? 0) with false. cbv iota.
  change (8 * 0) with 0. change (8 * 1) with 8. change (8 * 2) with 16.
  change (8 * 3) with 24.
  repeat split; repeat apply (f_equal2 (@cons Z));
    lazymatch goal with
    | |- [] = [] => reflexivity
    | _ => equal_bytes
    end.
Qed.

(** X6.  Each of the fifteen instances of the macro [API] initializes its
    context within the range the comment of [haval_init] gives: an output
    length of 4 to 8 words, which is the [xxx] bits of the instance's name,
    and 3, 4 or 5 passes, the [y] of its name. *)
Theorem API_instances_are_in_range (xxx : Z) (y : nat)
    (cc : sph_haval_context) :
  In (xxx, y) API_instances ->
  let sc := sph_haval_init xxx y cc in
  4 <= olen sc <= 8 /\ 32 * olen sc = xxx
  /\ 3 <= passes sc <= 5 /\ passes sc = Z.of_nat y.
Proof.
  intros H sc. subst sc. apply API_instances_cases in H.
  unfold sph_haval_init. cbn [haval_init olen passes].
  destruct H as [[-> | [-> | [-> | [-> | ->]]]] Hy];
    change (Z.shiftr 128 5) with 4; change (Z.shiftr 160 5) with 5;
    change (Z.shiftr 192 5) with 6; change (Z.shiftr 224 5) with 7;
    change (Z.shiftr 256 5) with 8; lia.
Qed.

Lemma API_instances_are_in_range_witness :
  let sc := sph_haval_init 192 4 zero_context in
  4 <= olen sc <= 8 /\ 32 * olen sc = 192
  /\ 3 <= passes sc <= 5 /\ passes sc = 4.
Proof.
  apply (API_instances_are_in_range 192 4 zero_context).
  cbn. tauto.
Defined.

(** X7.  For each of the fifteen members of the family, after init and
    any history of updates, close writes exactly the [xxx / 8] bytes of the
    digest, the size its documentation asks the output buffer to hold: the
    buffer keeps its length and the bytes after the digest are left as
    they were. *)
Theorem close_writes_the_digest_size (xxx : Z) (y : nat)
    (cc : sph_haval_context) (history : list (list Z * nat))
    (dst : list Z) :
  In (xxx, y) API_instances ->
  (Z.to_nat (xxx / 8) <= length dst)%nat ->
  let sc := absorbed xxx y (sph_haval_init xxx y cc) history in
  let out := snd (sph_haval_close xxx y sc dst) in
  length out = length dst
  /\ skipn (Z.to_nat (xxx / 8)) out = skipn (Z.to_nat (xxx / 8)) dst
  /\ Forall is_byte (firstn (Z.to_nat (xxx / 8)) out).
Proof.
  intros H Hlen sc out. apply API_instances_cases in H. destruct H as [Hx _].
  destruct (params_absorbed xxx y (sph_haval_init xxx y cc) history)
    as [Ho _].
  fold sc in Ho. cbn [sph_haval_init haval_init olen] in Ho.
  subst out. unfold sph_haval_close, haval_close. cbn [snd].
  set (p := haval_padded y sc 0 0).
  assert (Hp : olen p = Z.shiftr xxx 5)
    by (subst p; now rewrite (proj1 (params_haval_padded y sc 0 0))).
  clearbody p. clear Ho.
  assert (E : xxx / 8 = 4 * olen p /\ 4 <= olen p <= 8).
  { rewrite Hp. destruct Hx as [-> | [-> | [-> | [-> | ->]]]];
      vm_compute; intuition discriminate. }
  destruct E as [E Hr]. rewrite E in *. now apply haval_out_frame.
Qed.

Lemma close_writes_the_digest_size_witness :
  let sc := absorbed 160 4 (sph_haval_init 160 4 zero_context)
              [([1; 2; 3], 3%nat)] in
  let out := snd (sph_haval_close 160 4 sc (repeat 0xEE 24)) in
  length out = 24%nat
  /\ skipn 20 out = repeat 0xEE 4
  /\ Forall is_byte (firstn 20 out).
Proof.
  apply (close_writes_the_digest_size 160 4 zero_context
           [([1; 2; 3], 3%nat)] (repeat 0xEE 24)).
  - cbn. tauto.
  - vm_compute. lia.
Defined.

(** X8.  Each of the three compression functions writes eight words, each
    a value of 32 bits, whatever the words it is given. *)
Theorem compression_returns_eight_words (msg val : list Z) :
  (length (sph_haval_3_comp msg val) = 8%nat
   /\ Forall word32 (sph_haval_3_comp msg val))
  /\ (length (sph_haval_4_comp msg val) = 8%nat
      /\ Forall word32 (sph_haval_4_comp msg val))
  /\ (length (sph_haval_5_comp msg val) = 8%nat
      /\ Forall word32 (sph_haval_5_comp msg val)).
Proof.
  unfold sph_haval_3_comp, sph_haval_4_comp, sph_haval_5_comp,
    CORE3, CORE4, CORE5.
  cbv zeta. repeat split; apply UPDATE_STATE_words.
Qed.

(** X9.  The compression functions are the block functions of the hash:
    absorbing one block of 128 bytes at a block boundary changes the state
    words as [sph_haval_3_comp], [sph_haval_4_comp] or [sph_haval_5_comp]
    does on the block decoded by [IN_PREPARE] and the state words before. *)
Theorem a_full_block_is_one_compression
    (sc : sph_haval_context) (block : list Z) :
  fill_level sc = 0%nat -> length block = 128%nat ->
  let msg := IN_PREPARE (fun i => nth i block 0) in
  let val := WVAL (RSTATE sc) in
  WVAL (RSTATE (haval 3 sc block 128)) = sph_haval_3_comp msg val
  /\ WVAL (RSTATE (haval 4 sc block 128)) = sph_haval_4_comp msg val
  /\ WVAL (RSTATE (haval 5 sc block 128)) = sph_haval_5_comp msg val.
Proof.
  intros Hf Hlen msg val. subst msg val.
  unfold sph_haval_3_comp, sph_haval_4_comp, sph_haval_5_comp.
  rewrite !RVAL_WVAL.
  rewrite (proj1 (haval_block 3 sc block Hf Hlen)).
  rewrite (proj1 (haval_block 4 sc block Hf Hlen)).
  rewrite (proj1 (haval_block 5 sc block Hf Hlen)).
  repeat split.
Qed.

Lemma a_full_block_is_one_compression_witness :
  let sc := haval_init zero_context 8 5 in
  let block := map Z.of_nat (seq 0 128) in
  let msg := IN_PREPARE (fun i => nth i block 0) in
  let val := WVAL (RSTATE sc) in
  WVAL (RSTATE (haval 3 sc block 128)) = sph_haval_3_comp msg val
  /\ WVAL (RSTATE (haval 4 sc block 128)) = sph_haval_4_comp msg val
  /\ WVAL (RSTATE (haval 5 sc block 128)) = sph_haval_5_comp msg val.
Proof.
  apply (a_full_block_is_one_compression
           (haval_init zero_context 8 5) (map Z.of_nat (seq 0 128)));
    reflexivity.
Defined.

(** X10.  [IN_PREPARE] decodes a block without loss: from 128 bytes it
    makes 32 words of 32 bits, and the little-endian encoding of these
    words, one after the other, is the block again. *)
Theorem IN_PREPARE_decodes_the_block (b : nat -> Z) :
  Forall is_byte (block_bytes b) ->
  length (IN_PREPARE b) = 32%nat
  /\ Forall word32 (IN_PREPARE b)
  /\ flat_map le_bytes32 (IN_PREPARE b) = block_bytes b.
Proof.
  intros H. unfold block_bytes in *.
  assert (Hb : forall i, (i < 128)%nat -> is_byte (b i)).
  { intros i Hi. rewrite Forall_forall in H. apply H.
    apply in_map. apply in_seq. lia. }
  clear H. unfold IN_PREPARE. split; [now rewrite length_map, length_seq | ].
  split.
  - apply Forall_forall. intros w Hw. apply in_map_iff in Hw.
    destruct Hw as [i [<- Hi]]. apply in_seq in Hi.
    apply decoded_word32; apply Hb; lia.
  - rewrite flat_map_concat_map, map_map.
    rewrite (map_ext_in _ (fun i => [b (4 * i)%nat; b (4 * i + 1)%nat;
                                     b (4 * i + 2)%nat; b (4 * i + 3)%nat])).
    + reflexivity.
    + intros i Hi. apply in_seq in Hi.
      apply le_bytes32_of_decoded; apply Hb; lia.
Qed.

Lemma IN_PREPARE_decodes_the_block_witness :
  let b := fun i : nat => Z.of_nat (2 * i) in
  length (IN_PREPARE b) = 32%nat
  /\ Forall word32 (IN_PREPARE b)
  /\ flat_map le_bytes32 (IN_PREPARE b) = block_bytes b.
Proof.
  apply (IN_PREPARE_decodes_the_block (fun i : nat => Z.of_nat (2 * i))).
  apply Forall_forall. intros x Hx. apply in_map_iff in Hx.
  destruct Hx as [i [<- Hi]]. apply in_seq in Hi. unfold is_byte. lia.
Defined.

(** X15.  A step replaces the word [x7] by a word that determines it: with
    the other seven words, the message word and the constant fixed, two
    values of [x7] of 32 bits that give the same result are the same.  A
    step loses nothing of the state it works on. *)
Theorem STEP_is_injective_in_x7 (n p : nat)
    (x7 y7 x6 x5 x4 x3 x2 x1 x0 w c : Z) :
  word32 x7 -> word32 y7 ->
  STEP n p x7 x6 x5 x4 x3 x2 x1 x0 w c
  = STEP n p y7 x6 x5 x4 x3 x2 x1 x0 w c ->
  x7 = y7.
Proof.
  intros Hx Hy H. unfold STEP in H. cbv zeta in H.
  set (t := SPH_ROTR32 (FP n p x6 x5 x4 x3 x2 x1 x0) 7) in H.
  replace (t + SPH_ROTR32 x7 11 + w + c)
    with (t + w + c + SPH_ROTR32 x7 11) in H by lia.
  replace (t + SPH_ROTR32 y7 11 + w + c)
    with (t + w + c + SPH_ROTR32 y7 11) in H by lia.
  apply T32_add_cancel in H.
  apply Z.bits_inj'. intros m Hm.
  destruct (Z.ltb_spec m 32).
  - now rewrite (rotr11_bit x7 m), (rotr11_bit y7 m), H
      by (assumption || lia).
  - now rewrite !word32_high_bit by assumption.
Qed.

Lemma STEP_is_injective_in_x7_witness : 0xEC4E6C89 = 0xEC4E6C89.
Proof.
  apply (STEP_is_injective_in_x7 5 2 0xEC4E6C89 0xEC4E6C89
           0x082EFA98 0x299F31D0 0xA4093822 0x03707344 0x13198A2E
           0x85A308D3 0x243F6A88 0x61 0x452821E6);
    [unfold word32; lia | unfold word32; lia | reflexivity].
Defined.

End HavalProperties.

(** ** The chains: snapshots and intermediate buffers *)

Section ChainProperties.
Context {E : Externals}.

(** Two messages that lead to the same buffer at one step lead to the same
    buffer at every later step. *)
Lemma chain_buffers_merge (steps : list primitive) :
  forall (k : nat) (m m' : list Z),
  (k < length steps)%nat ->
  nth k (chain_buffers steps m) [] = nth k (chain_buffers steps m') [] ->
  (forall j, (k <= j)%nat ->
     nth j (chain_buffers steps m) [] = nth j (chain_buffers steps m') [])
  /\ last (chain_buffers steps m) uint512_new
     = last (chain_buffers steps m') uint512_new.
Proof.
  induction steps as [ | p rest IH]; intros k m m' Hk H;
    [cbn in Hk; lia | ].
  cbn [chain_buffers] in *. destruct k as [ | k].
  - cbn [nth] in H. rewrite H. split; reflexivity.
  - cbn [nth length] in H, Hk.
    destruct (IH k _ _ ltac:(lia) H) as [Hn Hl]. split.
    + intros [ | j] Hj; [lia | ]. cbn [nth]. apply Hn. lia.
    + destruct rest as [ | q rest]; [cbn in Hk; lia | ].
      cbn [chain_buffers] in *. exact Hl.
Qed.

(** X11.  In the header with five steps, after [fillz] each of the four
    macros [ZKECCAK], [ZCUBEHASH], [ZPANAMA] and [ZWHIRLPOOL] copies the
    context that init makes of the snapshot, and an update and a close on
    the copy write what they write on a context initialized in place. *)
Theorem snapshots_are_initialized5 (w : process Chain5.zstate)
    (v : Chain5.zvar) (cc : context (sph (Chain5.zvar_primitive v)))
    (data : list Z) (len : nat) (dst : list Z) :
  let P := sph (Chain5.zvar_primitive v) in
  (size P <= length dst)%nat ->
  fst (Chain5.zcopy v (snd (Chain5.fillz w))) = init P (zs w v)
  /\ snd (close P (update P (fst (Chain5.zcopy v (snd (Chain5.fillz w))))
                     data len) dst)
     = snd (close P (update P (init P cc) data len) dst).
Proof.
  intros P Hlen. split; [ | now apply cache_equivalence5].
  unfold Chain5.zcopy, gcopy. cbn [fst]. apply fillz_inits5.
Qed.

(** X12.  In the header with twenty-four steps the same holds of every
    snapshot but [z_tiger2]: of the twenty-two other snapshots that a macro
    copies, and of the two further objects that [fillz] initializes. *)
Theorem snapshots_are_initialized24 (w : process Chain24.zstate)
    (v : Chain24.zvar) (cc : context (sph (Chain24.zvar_primitive v)))
    (data : list Z) (len : nat) (dst : list Z) :
  let P := sph (Chain24.zvar_primitive v) in
  v <> Chain24.z_tiger2 ->
  (size P <= length dst)%nat ->
  fst (Chain24.zcopy v (snd (Chain24.fillz w))) = init P (zs w v)
  /\ snd (close P (update P (fst (Chain24.zcopy v (snd (Chain24.fillz w))))
                     data len) dst)
     = snd (close P (update P (init P cc) data len) dst).
Proof.
  intros P Hv Hlen. split; [ | now apply cache_equivalence24].
  unfold Chain24.zcopy, gcopy. cbn [fst]. now apply fillz_inits24.
Qed.

(** X13.  In the definition with five steps the message reaches the result
    through each element of [hash] alone: two calls that find the same
    bytes in [hash[k]] find the same bytes in every later element and
    return the same digest. *)
Theorem Hash9_merges_after_equal_buffers5 (k : nat) (m m' : list Z)
    (frame frame' : Chain5.locals) (w w' : process Chain5.zstate) :
  (k < 5)%nat ->
  nth k (fst (Chain5.Hash9_hash frame m w)) []
  = nth k (fst (Chain5.Hash9_hash frame' m' w')) [] ->
  fst (Chain5.Hash9 frame m w) = fst (Chain5.Hash9 frame' m' w')
  /\ forall j, (k <= j)%nat ->
       nth j (fst (Chain5.Hash9_hash frame m w)) []
       = nth j (fst (Chain5.Hash9_hash frame' m' w')) [].
Proof.
  rewrite !Hash9_run5, !Chain5Facts.Hash9_hash_run5. cbn [fst].
  intros Hk H.
  destruct (chain_buffers_merge Chain5.steps k m m' Hk H) as [Hn Hl].
  split; [ | exact Hn]. unfold computeChainHash. now rewrite Hl.
Qed.

(** X14.  The same in the definition with twenty-four steps: a collision
    at any step, such as one of the 20 bytes that RIPEMD-160 writes at the
    nineteenth, is a collision of [Hash9]. *)
Theorem Hash9_merges_after_equal_buffers24 (k : nat) (m m' : list Z)
    (frame frame' : Chain24.locals) (w w' : process Chain24.zstate) :
  (k < 24)%nat ->
  nth k (fst (Chain24.Hash9_hash frame m w)) []
  = nth k (fst (Chain24.Hash9_hash frame' m' w')) [] ->
  fst (Chain24.Hash9 frame m w) = fst (Chain24.Hash9 frame' m' w')
  /\ forall j, (k <= j)%nat ->
       nth j (fst (Chain24.Hash9_hash frame m w)) []
       = nth j (fst (Chain24.Hash9_hash frame' m' w')) [].
Proof.
  rewrite !Hash9_run24, !Chain24Facts.Hash9_hash_run24. cbn [fst].
  intros Hk H.
  destruct (chain_buffers_merge Chain24.steps k m m' Hk H) as [Hn Hl].
  split; [ | exact Hn]. unfold computeChainHash. now rewrite Hl.
Qed.

End ChainProperties.

Lemma snapshots_are_initialized5_witness :
  let P := Standin.primitives Panama in
  fst (@Chain5.zcopy Standin.externals Chain5.z_panama
         (snd (@Chain5.fillz Standin.externals Standin.start5)))
  = init P (zs Standin.start5 Chain5.z_panama)
  /\ snd (close P (update P
                     (fst (@Chain5.zcopy Standin.externals Chain5.z_panama
                             (snd (@Chain5.fillz Standin.externals
                                     Standin.start5))))
                     [1; 2; 3] 3) (repeat 0 64))
     = snd (close P (update P (init P [9]) [1; 2; 3] 3) (repeat 0 64)).
Proof.
  apply (@snapshots_are_initialized5 Standin.externals Standin.start5
           Chain5.z_panama [9] [1; 2; 3] 3 (repeat 0 64)).
  vm_compute. lia.
Defined.

Lemma snapshots_are_initialized24_witness :
  let P := Standin.primitives Haval256_5 in
  fst (@Chain24.zcopy Standin.externals Chain24.z_haval
         (snd (@Chain24.fillz Standin.externals Standin.start24)))
  = init P (zs Standin.start24 Chain24.z_haval)
  /\ snd (close P (update P
                     (fst (@Chain24.zcopy Standin.externals Chain24.z_haval
                             (snd (@Chain24.fillz Standin.externals
                                     Standin.start24))))
                     [1; 2; 3] 3) (repeat 0 64))
     = snd (close P (update P (init P Haval.zero_context) [1; 2; 3] 3)
              (repeat 0 64)).
Proof.
  apply (@snapshots_are_initialized24 Standin.externals Standin.start24
           Chain24.z_haval Haval.zero_context [1; 2; 3] 3 (repeat 0 64)).
  - discriminate.
  - vm_compute. lia.
Defined.

Lemma Hash9_merges_after_equal_buffers5_witness :
  fst (@Chain5.Hash9 Standin.externals Standin.frame5 [1] Standin.start5)
  = fst (@Chain5.Hash9 Standin.externals Standin.frame5 [1; 0]
           Standin.start5)
  /\ forall j, (0 <= j)%nat ->
       nth j (fst (@Chain5.Hash9_hash Standin.externals Standin.frame5 [1]
                     Standin.start5)) []
       = nth j (fst (@Chain5.Hash9_hash Standin.externals Standin.frame5
                       [1; 0] Standin.start5)) [].
Proof.
  apply (@Hash9_merges_after_equal_buffers5 Standin.externals 0 [1] [1; 0]);
    [lia | vm_compute; reflexivity].
Defined.

Lemma Hash9_merges_after_equal_buffers24_witness :
  fst (@Chain24.Hash9 Standin.externals Standin.frame24 [1] Standin.start24)
  = fst (@Chain24.Hash9 Standin.externals Standin.frame24 [1; 0]
           Standin.start24)
  /\ forall j, (0 <= j)%nat ->
       nth j (fst (@Chain24.Hash9_hash Standin.externals Standin.frame24 [1]
                     Standin.start24)) []
       = nth j (fst (@Chain24.Hash9_hash Standin.externals Standin.frame24
                       [1; 0] Standin.start24)) [].
Proof.
  apply (@Hash9_merges_after_equal_buffers24 Standin.externals 0 [1] [1; 0]);
    [lia | vm_compute; reflexivity].
Defined.
